(** * Request authorization of the charm store (package v4, auth.go)

    A shallow embedding of [internal/v4/auth.go] together with the parts of
    the Go libraries it calls ([strings], [encoding/base64], [errgo]), and
    the properties of the authorization decision proved over it.

    Go strings are byte sequences: they are [string] (a list of 8-bit
    [ascii]); a byte is a [Z] in [0, 256) where arithmetic is done on it.
    A Go function returning [(T, error)] returns a pair whose second
    component is [option error] ([None] is [nil]).  Calls to the external
    collaborators (the bakery service and the entity store) are recorded in
    a trace threaded through a small state monad; a nil dereference is the
    outcome [Panic]. *)

From Stdlib Require Import ZArith Ascii String List Lia Bool.
From stdpp Require Import gmap strings list.

Local Open Scope string_scope.
Local Open Scope Z_scope.

(** ** Bytes *)

Definition byte_of_ascii (c : ascii) : Z := Z.of_N (N_of_ascii c).
Definition ascii_of_byte (b : Z) : ascii := ascii_of_N (Z.to_N b).

(** [byte(x)]: conversion of an unsigned integer to [byte] keeps the low
    eight bits. *)
Definition byte (x : Z) : Z := Z.land x 255.

(** [[]byte(s)] and [string(b)]. *)
Definition bytes_of_string (s : string) : list Z :=
  map byte_of_ascii (list_ascii_of_string s).
Definition string_of_bytes (b : list Z) : string :=
  string_of_list_ascii (map ascii_of_byte b).

(** ** Package strings *)

Module strings.

(** Number of bytes at the head of [s] that encode one white space rune
    ([unicode.IsSpace]), 0 when [s] does not start with one.  The white
    space runes are U+0009..U+000D, U+0020, U+0085, U+00A0, U+1680,
    U+2000..U+200A, U+2028, U+2029, U+202F, U+205F and U+3000, here in
    their UTF-8 encodings. *)
Definition spaceWidth (s : string) : nat :=
  match s with
  | EmptyString => 0%nat
  | String c0 s1 =>
      let b0 := byte_of_ascii c0 in
      if ((9 <=? b0) && (b0 <=? 13)) || (b0 =? 32) then 1%nat
      else
        match s1 with
        | EmptyString => 0%nat
        | String c1 s2 =>
            let b1 := byte_of_ascii c1 in
            if (b0 =? 194) && ((b1 =? 133) || (b1 =? 160)) then 2%nat
            else
              match s2 with
              | EmptyString => 0%nat
              | String c2 _ =>
                  let b2 := byte_of_ascii c2 in
                  if (b0 =? 225) && (b1 =? 154) && (b2 =? 128) then 3%nat
                  else if (b0 =? 226) && (b1 =? 128)
                          && (((128 <=? b2) && (b2 <=? 138))
                              || (b2 =? 168) || (b2 =? 169) || (b2 =? 175))
                  then 3%nat
                  else if (b0 =? 226) && (b1 =? 129) && (b2 =? 159) then 3%nat
                  else if (b0 =? 227) && (b1 =? 128) && (b2 =? 128) then 3%nat
                  else 0%nat
              end
        end
  end.

Definition flush (cur : string) : list string :=
  match cur with
  | EmptyString => []
  | _ => [cur]
  end.

(** The scan of [Fields]: [skip] bytes of a white space rune are still to
    be passed over, [cur] is the field read so far.  A rune that is not
    white space is passed one byte at a time: none of its later bytes can
    start a white space rune. *)
Fixpoint fieldsFrom (skip : nat) (cur : string) (s : string) : list string :=
  match s with
  | EmptyString => flush cur
  | String c s' =>
      match skip with
      | S k => fieldsFrom k cur s'
      | O =>
          match spaceWidth s with
          | O => fieldsFrom 0 (cur +:+ String c EmptyString) s'
          | S k => (flush cur ++ fieldsFrom k EmptyString s')%list
          end
      end
  end.

(** [strings.Fields(s)]: the maximal runs of bytes of [s] between white
    space. *)
Definition Fields (s : string) : list string := fieldsFrom 0 EmptyString s.

(** [strings.Index] for a one-byte separator, as the pair of the text
    before and after its first occurrence. *)
Fixpoint cut (sep : ascii) (s : string) : option (string * string) :=
  match s with
  | EmptyString => None
  | String c s' =>
      if Ascii.eqb c sep then Some (EmptyString, s')
      else
        match cut sep s' with
        | Some (before, after) => Some (String c before, after)
        | None => None
        end
  end.

(** [strings.SplitN(s, sep, 2)] for a one-byte separator [sep]. *)
Definition SplitN2 (s : string) (sep : ascii) : list string :=
  match cut sep s with
  | Some (before, after) => [before; after]
  | None => [s]
  end.

End strings.

(** ** Package encoding/base64, [StdEncoding] *)

Module base64.

Definition encodeStd : string :=
  "ABCDEFGHIJKLMNOPQRSTUVWXYZabcdefghijklmnopqrstuvwxyz0123456789+/".

Definition StdPadding : ascii := "="%char.

(** [enc.encode[i]] *)
Definition encode (i : Z) : ascii :=
  nth (Z.to_nat i) (list_ascii_of_string encodeStd) "000"%char.

(** [enc.decodeMap]: 256 entries, 0xFF everywhere but at the bytes of the
    alphabet, which hold their index. *)
Definition decodeMap : list Z :=
  Eval vm_compute in
    foldl (fun m i => <[Z.to_nat (byte_of_ascii (encode i)) := i]> m)
          (replicate 256 255) (map Z.of_nat (seq 0 64)).

Definition decode (c : ascii) : Z :=
  default 255 (decodeMap !! Z.to_nat (byte_of_ascii c)).

(** [Encode]: three source bytes give four characters; a last group of one
    or two bytes is padded with [=]. *)
Fixpoint Encode (src : list Z) : list ascii :=
  match src with
  | [] => []
  | [s0] =>
      let val := Z.shiftl s0 16 in
      [encode (Z.land (Z.shiftr val 18) 63);
       encode (Z.land (Z.shiftr val 12) 63);
       StdPadding; StdPadding]
  | [s0; s1] =>
      let val := Z.lor (Z.shiftl s0 16) (Z.shiftl s1 8) in
      [encode (Z.land (Z.shiftr val 18) 63);
       encode (Z.land (Z.shiftr val 12) 63);
       encode (Z.land (Z.shiftr val 6) 63);
       StdPadding]
  | s0 :: s1 :: s2 :: rest =>
      let val := Z.lor (Z.lor (Z.shiftl s0 16) (Z.shiftl s1 8)) s2 in
      encode (Z.land (Z.shiftr val 18) 63)
      :: encode (Z.land (Z.shiftr val 12) 63)
      :: encode (Z.land (Z.shiftr val 6) 63)
      :: encode (Z.land val 63)
      :: Encode rest
  end.

Definition EncodeToString (src : list Z) : string :=
  string_of_list_ascii (Encode src).

Definition isNewline (c : ascii) : bool :=
  Ascii.eqb c "010"%char || Ascii.eqb c "013"%char.

Definition isPad (c : ascii) : bool := Ascii.eqb c StdPadding.

Definition isNil {A} (l : list A) : bool :=
  match l with [] => true | _ => false end.

(** The quanta of the input once the new lines, which the decoder passes
    over wherever they stand, are gone.  Padding is accepted in the last
    quantum only, as [xx==] or [xxx=]; the bits of the last character
    that do not fit a byte are dropped without a check. [None] is
    [CorruptInputError]. *)
Fixpoint decodeQuanta (s : list ascii) : option (list Z) :=
  match s with
  | [] => Some []
  | c0 :: c1 :: c2 :: c3 :: rest =>
      let d0 := decode c0 in
      let d1 := decode c1 in
      let d2 := decode c2 in
      let d3 := decode c3 in
      if isPad c2 && isPad c3 && isNil rest then
        if (d0 =? 255) || (d1 =? 255) then None
        else
          let val := Z.lor (Z.shiftl d0 18) (Z.shiftl d1 12) in
          Some [byte (Z.shiftr val 16)]
      else if isPad c3 && isNil rest then
        if (d0 =? 255) || (d1 =? 255) || (d2 =? 255) then None
        else
          let val :=
            Z.lor (Z.lor (Z.shiftl d0 18) (Z.shiftl d1 12)) (Z.shiftl d2 6) in
          Some [byte (Z.shiftr val 16); byte (Z.shiftr val 8)]
      else
        if (d0 =? 255) || (d1 =? 255) || (d2 =? 255) || (d3 =? 255) then None
        else
          let val :=
            Z.lor (Z.lor (Z.lor (Z.shiftl d0 18) (Z.shiftl d1 12))
                         (Z.shiftl d2 6)) d3 in
          match decodeQuanta rest with
          | Some out =>
              Some (byte (Z.shiftr val 16) :: byte (Z.shiftr val 8)
                    :: byte val :: out)
          | None => None
          end
  | _ => None
  end.

(** [StdEncoding.DecodeString(s)]: the bytes, or [None] for an error. *)
Definition DecodeString (s : string) : option (list Z) :=
  decodeQuanta
    (List.filter (fun c => negb (isNewline c)) (list_ascii_of_string s)).

End base64.

(** ** Values of the collaborating packages *)

(** [charm.Reference] and [router.ResolvedURL]: only passed on by this file. *)
Record Reference := { refText : string }.
Record ResolvedURL := { URL : Reference; PromulgatedRevision : Z }.

(** [*macaroon.Macaroon]: minted by the bakery and forwarded, never
    inspected. *)
Record Macaroon := { macaroonId : string }.

(** [checkers.Caveat], and [checkers.NeedDeclaredCaveat] kept as a
    constructor. *)
Inductive Caveat : Type :=
| MkCaveat (Location Condition : string)
| NeedDeclaredCaveat (cav : Caveat) (keys : list string).

(** ** Errors (package errgo and the error values of the other packages) *)

(** An operand of a format string. *)
Inductive operand : Type :=
| OpString (s : string)
| OpURL (id : ResolvedURL).

(** [fmt.Sprintf(f, a...)], kept symbolic: the format and its operands. *)
Record message := Sprintf { format : string; operands : list operand }.

(** Where an [*errgo.Err] lives: a package-level variable, or a fresh
    allocation of the call that made it. *)
Inductive alloc : Type :=
| PkgVar (name : string)
| Heap.

#[local] Set Warnings "-register-all".

Inductive error : Type :=
| ErrorCode (code : string)
    (* params.ErrorCode, a string type *)
| Err (at_ : alloc) (Message_ : message) (Cause_ Underlying_ : option error)
    (* *errgo.Err *)
| VerificationError (Reason : string)
    (* *bakery.VerificationError *)
| DischargeRequiredError (m : Macaroon) (path : string) (originalErr : error)
    (* the *httpbakery.Error made by httpbakery.NewDischargeRequiredError *)
| OtherError (text : string).
    (* any other error value of a collaborator *)

Inductive result (A : Type) : Type :=
| Ok (a : A)
| Fail (err : error).
Arguments Ok {A} a.
Arguments Fail {A} err.

Module errgo.

Definition New (s : string) : error :=
  Err Heap (Sprintf s []) None None.

Definition Newf (f : string) (a : list operand) : error :=
  Err Heap (Sprintf f a) None None.

Definition WithCausef (underlying cause : option error) (f : string)
    (a : list operand) : error :=
  Err Heap (Sprintf f a) cause underlying.

Definition Notef (underlying : error) (f : string) (a : list operand) : error :=
  Err Heap (Sprintf f a) None (Some underlying).

(** [Cause(err)]: the cause recorded in an [*Err], the error itself when
    there is none or when it is of another type. *)
Definition Cause (err : error) : error :=
  match err with
  | Err _ _ (Some diag) _ => diag
  | _ => err
  end.

(** [errgo.Is(err)], the predicate [err == err1].  Two error codes are
    equal when their strings are; two [*Err] are the same when they are
    the same package-level variable.  Every comparison in auth.go has a
    package-level value on one side, so no fresh allocation is ever
    compared with itself. *)
Definition Is (err err1 : error) : bool :=
  match err, err1 with
  | ErrorCode c, ErrorCode c1 => String.eqb c c1
  | Err (PkgVar n) _ _ _, Err (PkgVar n1) _ _ _ => String.eqb n n1
  | _, _ => false
  end.

Definition Any (_ : error) : bool := true.

(** [Mask(underlying, pass...)] on a non-nil [underlying]: a new error
    that keeps the cause when one of [pass] accepts it. *)
Definition Mask (underlying : error) (pass : list (error -> bool)) : error :=
  let cause := Cause underlying in
  Err Heap (Sprintf "" [])
      (if existsb (fun f => f cause) pass then Some cause else None)
      (Some underlying).

End errgo.

(** ** Package params *)

Module params.

(** Special user/group names. *)
Definition Everyone : string := "everyone".
Definition Admin : string := "admin".

(** Modelled from the spec: the error codes [params.ErrUnauthorized] and
    [params.ErrNotFound] are declared in a file of package params that is
    not among the sources; the spec names the kinds [Unauthorized] and
    [NotFound].  They are two distinct values of [params.ErrorCode]. *)
Definition ErrUnauthorized : error := ErrorCode "unauthorized".
Definition ErrNotFound : error := ErrorCode "not found".

End params.

(** ** The request, the handler and its collaborators *)

(** [*http.Request]: the method, the path and the headers (the cookies are
    among the headers). *)
Record Request := {
  Method : string;
  Path : string;
  Header : gmap string (list string)
}.

(** [req.Header.Get(key)] for a key in canonical form: the first value, or
    the empty string. *)
Definition Header_Get (h : gmap string (list string)) (key : string) : string :=
  match h !! key with
  | Some (v :: _) => v
  | _ => ""
  end.

(** [*bakery.Service], through the two operations used on it. *)
Record Service := {
  (* httpbakery.CheckRequest(svc, req, nil, checkers.New()) *)
  CheckRequest : Request -> result (gmap string string);
  (* svc.NewMacaroon(id, nil, caveats) *)
  NewMacaroon : string -> list Caveat -> result Macaroon
}.

Record ACL := { Read : list string; Write : list string }.
Record BaseEntity := { ACLs : ACL }.

Record Store := {
  Bakery : option Service;
  FindBaseEntity : Reference -> list string -> result BaseEntity
}.

Record ServerParams := {
  AuthUsername : string;
  AuthPassword : string;
  IdentityLocation : string
}.

Record Handler := { store : Store; config : ServerParams }.

(** ** Calls to the collaborators, and the monad that records them *)

Inductive Call : Type :=
| CallCheckRequest (req : Request)
| CallNewMacaroon (id : string) (caveats : list Caveat)
| CallFindBaseEntity (url : Reference) (fields : list string).

Inductive outcome (A : Type) : Type :=
| Ret (a : A)
| Panic.
Arguments Ret {A} a.
Arguments Panic {A}.

Definition M (A : Type) : Type := list Call -> outcome A * list Call.

#[global] Instance M_ret : MRet M := fun A a t => (Ret a, t).

#[global] Instance M_bind : MBind M := fun A B f m t =>
  match m t with
  | (Ret a, t') => f a t'
  | (Panic, t') => (Panic, t')
  end.

Definition record (c : Call) : M unit := fun t => (Ret tt, (t ++ [c])%list).

Definition panic {A} : M A := fun t => (Panic, t).

(** ** auth.go *)

Definition usernameAttr : string := "username".
Definition groupsAttr : string := "groups".

(** [authorization] contains authorization information extracted from an
    HTTP request.  The zero value contains no privileges. *)
Record authorization := {
  Admin : bool;
  Username : string;
  Groups : list string
}.

Definition errNoCreds : error :=
  Err (PkgVar "errNoCreds") (Sprintf "missing HTTP auth header" []) None None.

(** [parseCredentials] parses the given request and returns the HTTP basic
    auth credentials included in its header. *)
Definition parseCredentials (req : Request) : result (string * string) :=
  let auth := Header_Get (Header req) "Authorization" in
  if String.eqb auth "" then Fail errNoCreds
  else
    match strings.Fields auth with
    | [scheme; encoded] =>
        if negb (String.eqb scheme "Basic")
        then Fail (errgo.New "invalid HTTP auth header")
        else
          match base64.DecodeString encoded with
          | None => Fail (errgo.New "invalid HTTP auth encoding")
          | Some challenge =>
              match strings.SplitN2 (string_of_bytes challenge) ":"%char with
              | [username; password] => Ok (username, password)
              | _ => Fail (errgo.New "invalid HTTP auth contents")
              end
          end
    | _ => Fail (errgo.New "invalid HTTP auth header")
    end.

(** [attrMap[key]]: the zero value when the key is absent. *)
Definition attr (attrMap : gmap string string) (key : string) : string :=
  default "" (attrMap !! key).

Definition isNone {A} (o : option A) : bool :=
  match o with None => true | Some _ => false end.

(** [checkRequest] checks for any authorization tokens in the request and
    returns any found as an authorization. *)
Definition checkRequest (h : Handler) (req : Request) : M (result authorization) :=
  match parseCredentials req with
  | Ok (user, passwd) =>
      if negb (String.eqb user (AuthUsername (config h)))
         || negb (String.eqb passwd (AuthPassword (config h)))
      then mret (Fail (errgo.WithCausef None (Some params.ErrUnauthorized)
                         "invalid user name or password" []))
      else mret (Ok {| Admin := true; Username := ""; Groups := [] |})
  | Fail err =>
      if negb (errgo.Is errNoCreds (errgo.Cause err))
         || isNone (Bakery (store h))
         || String.eqb (IdentityLocation (config h)) ""
      then mret (Fail (errgo.WithCausef (Some err) (Some params.ErrUnauthorized)
                         "authentication failed" []))
      else
        match Bakery (store h) with
        | None => panic (* not reached: the bakery is not nil here *)
        | Some svc =>
            record (CallCheckRequest req);;
            match CheckRequest svc req with
            | Fail err => mret (Fail (errgo.Mask err [errgo.Any]))
            | Ok attrMap =>
                mret (Ok {| Admin := false;
                            Username := attr attrMap usernameAttr;
                            Groups := strings.Fields (attr attrMap groupsAttr) |})
            end
        end
  end.

(** The loop over the groups: [members[name] = true]. *)
Definition addGroups (members : gmap string bool) (groups : list string)
    : gmap string bool :=
  foldl (fun m name => <[name := true]> m) members groups.

(** The loop over the ACL: the first name that is a member ends it. *)
Fixpoint anyMember (members : gmap string bool) (acl : list string) : bool :=
  match acl with
  | [] => false
  | name :: rest =>
      if default false (members !! name) then true else anyMember members rest
  end.

Definition checkACLMembership (auth : authorization) (acl : list string)
    : option error :=
  if Admin auth then None
  else if String.eqb (Username auth) "" then Some (errgo.New "no username declared")
  else
    let members :=
      addGroups (<[Username auth := true]> (<[params.Everyone := true]> ∅))
                (Groups auth) in
    if anyMember members acl then None
    else Some (errgo.Newf "access denied for user %q" [OpString (Username auth)]).

Definition newMacaroon (h : Handler) : M (result Macaroon) :=
  match Bakery (store h) with
  | None => panic
  | Some svc =>
      let caveats :=
        [NeedDeclaredCaveat
           (MkCaveat (IdentityLocation (config h)) "is-authenticated-user")
           [usernameAttr; groupsAttr]] in
      record (CallNewMacaroon "" caveats);;
      mret (NewMacaroon svc "" caveats)
  end.

(** The first loop of [authorize]: is the ACL open to everyone? *)
Fixpoint openToEveryone (acl : list string) : bool :=
  match acl with
  | [] => false
  | name :: rest =>
      if String.eqb name params.Everyone then true else openToEveryone rest
  end.

Definition isVerificationError (err : error) : bool :=
  match err with
  | VerificationError _ => true
  | _ => false
  end.

(** [authorize] checks that the current user is authorized based on the
    provided ACL.  [None] is the nil error: the request is allowed.  The
    calls to the logger are left out. *)
Definition authorize (h : Handler) (req : Request) (acl : list string)
    : M (option error) :=
  if openToEveryone acl then mret None
  else
    r ← checkRequest h req;
    match r with
    | Ok auth =>
        match checkACLMembership auth acl with
        | Some err =>
            mret (Some (errgo.WithCausef (Some err) (Some params.ErrUnauthorized)
                          "" []))
        | None => mret None
        end
    | Fail verr =>
        if negb (isVerificationError (errgo.Cause verr))
        then mret (Some (errgo.Mask verr [errgo.Is params.ErrUnauthorized]))
        else
          r ← newMacaroon h;
          match r with
          | Fail err => mret (Some (errgo.Notef err "cannot mint macaroon" []))
          | Ok m =>
              let cookiePath := "/" in
              mret (Some (DischargeRequiredError m cookiePath verr))
          end
    end.

Definition authorizeWithPerms (h : Handler) (req : Request)
    (read write : list string) : M (option error) :=
  let acl :=
    if String.eqb (Method req) "DELETE" || String.eqb (Method req) "PATCH"
       || String.eqb (Method req) "POST" || String.eqb (Method req) "PUT"
    then write
    else read in
  authorize h req acl.

Definition authorizeEntity (h : Handler) (id : ResolvedURL) (req : Request)
    : M (option error) :=
  record (CallFindBaseEntity (URL id) ["acls"]);;
  match FindBaseEntity (store h) (URL id) ["acls"] with
  | Fail err =>
      if errgo.Is params.ErrNotFound (errgo.Cause err)
      then mret (Some (errgo.WithCausef None (Some params.ErrNotFound)
                         "entity %q not found" [OpURL id]))
      else mret (Some (errgo.Notef err
                         "cannot retrieve entity %q for authorization" [OpURL id]))
  | Ok baseEntity =>
      authorizeWithPerms h req (Read (ACLs baseEntity)) (Write (ACLs baseEntity))
  end.

(** ** Vocabulary of the properties *)

(** The error is of kind [Unauthorized]: its cause is the error code. *)
Definition Unauthorized (err : error) : Prop :=
  errgo.Cause err = params.ErrUnauthorized.

(** The error is the discharge-required outcome. *)
Definition isDischargeRequired (err : error) : bool :=
  match err with
  | DischargeRequiredError _ _ _ => true
  | _ => false
  end.

(** The wire form of Basic credentials:
    [Basic base64(username ":" password)]. *)
Definition basicHeader (username password : string) : string :=
  "Basic " +:+
  base64.EncodeToString (bytes_of_string (username +:+ ":" +:+ password)).

(** A byte that starts no white space rune. *)
Definition plainb (c : ascii) : bool :=
  let b := byte_of_ascii c in
  negb (((9 <=? b) && (b <=? 13)) || (b =? 32)
        || (b =? 194) || (b =? 225) || (b =? 226) || (b =? 227)).

(** What the round trip needs of the character that encodes a sextet: it
    decodes to the sextet, and is neither padding, a new line nor the start
    of white space. *)
Definition sextetOk (i : Z) : bool :=
  (base64.decode (base64.encode i) =? i)
  && negb (base64.isPad (base64.encode i))
  && negb (base64.isNewline (base64.encode i))
  && plainb (base64.encode i).

(** The membership set of an authorization and the principals of an ACL,
    as sets. *)
Definition membership (auth : authorization) : gset string :=
  {[params.Everyone; Username auth]} ∪ list_to_set (Groups auth).

Definition principals (acl : list string) : gset string := list_to_set acl.

(** The methods that change a resource. *)
Definition mutatingMethods : list string := ["DELETE"; "PATCH"; "POST"; "PUT"].

(** The caveat of every minted macaroon. *)
Definition mintedCaveats (h : Handler) : list Caveat :=
  [NeedDeclaredCaveat
     (MkCaveat (IdentityLocation (config h)) "is-authenticated-user")
     [usernameAttr; groupsAttr]].

(** ** Sample values *)

Module Sample.

Definition request (method authorizationHeader : string) : Request :=
  {| Method := method; Path := "/trusty/wordpress/meta/any";
     Header := if String.eqb authorizationHeader "" then ∅
               else {["Authorization" := [authorizationHeader]]} |}.

Definition noMacaroon : error :=
  VerificationError "no macaroon cookies in request".

(** A bakery that finds no macaroon in any request and mints a fixed
    token. *)
Definition bakery : Service :=
  {| CheckRequest := fun _ => Fail noMacaroon;
     NewMacaroon := fun _ _ => Ok {| macaroonId := "m1" |} |}.

Definition wordpress : BaseEntity :=
  {| ACLs := {| Read := ["everyone"]; Write := ["charmers"] |} |}.

Definition handler (b : option Service) (location : string) : Handler :=
  {| store := {| Bakery := b; FindBaseEntity := fun _ _ => Ok wordpress |};
     config := {| AuthUsername := "admin"; AuthPassword := "s3cret";
                  IdentityLocation := location |} |}.

Definition id : ResolvedURL :=
  {| URL := {| refText := "cs:trusty/wordpress-1" |};
     PromulgatedRevision := -1 |}.

Definition bob : authorization :=
  {| Admin := false; Username := "bob"; Groups := ["charmers"] |}.

Definition root : authorization :=
  {| Admin := true; Username := ""; Groups := [] |}.

Definition nameless : authorization :=
  {| Admin := false; Username := ""; Groups := ["charmers"] |}.

End Sample.

(** ** Vocabulary of the further properties *)

(** An ASCII white space byte: tab, new line, vertical tab, form feed,
    carriage return or space. *)
Definition asciiSpaceb (c : ascii) : bool :=
  let b := byte_of_ascii c in
  ((9 <=? b) && (b <=? 13)) || (b =? 32).

(** The authorization that [checkRequest] builds from the attributes a
    verified macaroon declares. *)
Definition declared (attrMap : gmap string string) : authorization :=
  {| Admin := false;
     Username := attr attrMap usernameAttr;
     Groups := strings.Fields (attr attrMap groupsAttr) |}.

(** The authorization of the administrator. *)
Definition superuser : authorization :=
  {| Admin := true; Username := ""; Groups := [] |}.

(** The three errors of [checkRequest] and [authorize] that wrap another. *)
Definition invalidCredentials : error :=
  errgo.WithCausef None (Some params.ErrUnauthorized)
    "invalid user name or password" [].

Definition authenticationFailed (err : error) : error :=
  errgo.WithCausef (Some err) (Some params.ErrUnauthorized)
    "authentication failed" [].

Definition refused (err : error) : error :=
  errgo.WithCausef (Some err) (Some params.ErrUnauthorized) "" [].

(** What authorize returns when the token verifier is consulted. *)
Definition tokenOutcome (h : Handler) (svc : Service) (req : Request)
    (acl : list string) (t : list Call) : outcome (option error) * list Call :=
  match CheckRequest svc req with
  | Ok attrMap =>
      (Ret match checkACLMembership (declared attrMap) acl with
           | Some err => Some (refused err)
           | None => None
           end,
       (t ++ [CallCheckRequest req])%list)
  | Fail err =>
      if isVerificationError (errgo.Cause err)
      then (Ret (Some match NewMacaroon svc "" (mintedCaveats h) with
                      | Ok m =>
                          DischargeRequiredError m "/"
                            (errgo.Mask err [errgo.Any])
                      | Fail mintErr =>
                          errgo.Notef mintErr "cannot mint macaroon" []
                      end),
            (t ++ [CallCheckRequest req;
                   CallNewMacaroon "" (mintedCaveats h)])%list)
      else (Ret (Some (errgo.Mask (errgo.Mask err [errgo.Any])
                         [errgo.Is params.ErrUnauthorized])),
            (t ++ [CallCheckRequest req])%list)
  end.

Definition isPanic {A} (o : outcome A) : bool :=
  match o with
  | Panic => true
  | Ret _ => false
  end.

Module Fixture.

(** A bakery that accepts every request as the user with the given
    attributes. *)
Definition verifier (attrMap : gmap string string) : Service :=
  {| CheckRequest := fun _ => Ok attrMap;
     NewMacaroon := fun _ _ => Ok {| macaroonId := "m2" |} |}.

(** A bakery whose storage is down. *)
Definition broken : Service :=
  {| CheckRequest := fun _ => Fail (OtherError "cannot reach storage");
     NewMacaroon := fun _ _ => Fail (OtherError "cannot reach storage") |}.

Definition bobAttrs : gmap string string :=
  {[ "username" := "bob"; "groups" := "charmers  yellow" ]}.

Definition groupsOnly : gmap string string :=
  {[ "groups" := "charmers" ]}.

(** A handler whose store fails every lookup with [err]. *)
Definition failing (err : error) : Handler :=
  {| store := {| Bakery := None; FindBaseEntity := fun _ _ => Fail err |};
     config := {| AuthUsername := "admin"; AuthPassword := "s3cret";
                  IdentityLocation := "" |} |}.

(** A handler whose configured admin name holds a colon. *)
Definition colonAdmin : Handler :=
  {| store := {| Bakery := None;
                 FindBaseEntity := fun _ _ => Ok Sample.wordpress |};
     config := {| AuthUsername := "ad:min"; AuthPassword := "s3cret";
                  IdentityLocation := "" |} |}.

End Fixture.

Example parse_alice :
  parseCredentials (Sample.request "GET" "Basic YWxpY2U6cGE6c3M=")
  = Ok ("alice", "pa:ss").
Proof. vm_compute. reflexivity. Qed.

Example encode_alice :
  basicHeader "alice" "pa:ss" = "Basic YWxpY2U6cGE6c3M=".
Proof. vm_compute. reflexivity. Qed.

Example fields_basic :
  strings.Fields "  Basic   abc " = ["Basic"; "abc"].
Proof. vm_compute. reflexivity. Qed.

Example fields_no_break_space :
  strings.Fields ("Basic" +:+ String "194"%char (String "160"%char "abc"))
  = ["Basic"; "abc"].
Proof. vm_compute. reflexivity. Qed.

Example decode_padding :
  base64.DecodeString "YQ==" = Some [97]
  /\ base64.DecodeString "YWI=" = Some [97; 98]
  /\ base64.DecodeString "YQ=" = None
  /\ base64.DecodeString "YQ" = None
  /\ base64.DecodeString "YQ==YQ==" = None
  /\ base64.DecodeString "Y=Q=" = None.
Proof. vm_compute. repeat split; reflexivity. Qed.

Example decode_new_line :
  base64.DecodeString (String "089"%char (String "087"%char
                         (String "010"%char "Jj")))
  = Some [97; 98; 99].
Proof. vm_compute. reflexivity. Qed.

Example parse_errors :
  parseCredentials (Sample.request "GET" "") = Fail errNoCreds
  /\ parseCredentials (Sample.request "GET" "Basic")
     = Fail (errgo.New "invalid HTTP auth header")
  /\ parseCredentials (Sample.request "GET" "Bearer YWxpY2U6cGE6c3M=")
     = Fail (errgo.New "invalid HTTP auth header")
  /\ parseCredentials (Sample.request "GET" "Basic !!")
     = Fail (errgo.New "invalid HTTP auth encoding")
  /\ parseCredentials (Sample.request "GET" "Basic YWxpY2U=")
     = Fail (errgo.New "invalid HTTP auth contents").
Proof. vm_compute. repeat split; reflexivity. Qed.

Example bob_denied :
  checkACLMembership Sample.bob ["admin"; "alice"]
  = Some (errgo.Newf "access denied for user %q" [OpString "bob"]).
Proof. vm_compute. reflexivity. Qed.

Example bob_allowed :
  checkACLMembership Sample.bob ["alice"; "charmers"] = None.
Proof. vm_compute. reflexivity. Qed.

Example anonymous_challenged :
  authorize (Sample.handler (Some Sample.bakery) "https://idm")
            (Sample.request "GET" "") ["charmers"] []
  = (Ret (Some (DischargeRequiredError {| macaroonId := "m1" |} "/"
                  (errgo.Mask Sample.noMacaroon [errgo.Any]))),
     [CallCheckRequest (Sample.request "GET" "");
      CallNewMacaroon ""
        (mintedCaveats (Sample.handler (Some Sample.bakery) "https://idm"))]).
Proof. vm_compute. reflexivity. Qed.

(** * Properties *)

(** ** The monad *)

Lemma bind_ret {A B} (a : A) (f : A -> M B) (t : list Call) :
  (mret a ≫= f) t = f a t.
Proof. reflexivity. Qed.

Lemma bind_record {B} (c : Call) (k : M B) (t : list Call) :
  (record c ≫= fun _ => k) t = k (t ++ [c])%list.
Proof. reflexivity. Qed.

Lemma bind_outcome {A B} (m : M A) (f : A -> M B) (t t' : list Call) (a : A) :
  m t = (Ret a, t') -> (m ≫= f) t = f a t'.
Proof. intros E. unfold mbind, M_bind. rewrite E. reflexivity. Qed.

(** ** Strings and errors *)

Lemma eqb_false_of_ne (a b : string) : a <> b -> String.eqb a b = false.
Proof. intros H. apply String.eqb_neq. exact H. Qed.

Lemma openToEveryone_spec (acl : list string) :
  openToEveryone acl = true <-> params.Everyone ∈ acl.
Proof.
  induction acl as [|name rest IH]; simpl.
  - split; [discriminate | intros H; inversion H].
  - destruct (String.eqb_spec name params.Everyone) as [->|Hne].
    + split; [intros _; left | reflexivity].
    + rewrite IH. split; [intros H; right; exact H|].
      intros H. apply elem_of_cons in H as [H|H]; [congruence | exact H].
Qed.

Lemma openToEveryone_closed (acl : list string) :
  params.Everyone ∉ acl -> openToEveryone acl = false.
Proof.
  intros H. destruct (openToEveryone acl) eqn:E; [|reflexivity].
  apply openToEveryone_spec in E. contradiction.
Qed.

(** The four errors of [parseCredentials]; each is its own cause. *)
Lemma parseCredentials_errors (req : Request) (err : error) :
  parseCredentials req = Fail err ->
  err = errNoCreds
  \/ err = errgo.New "invalid HTTP auth header"
  \/ err = errgo.New "invalid HTTP auth encoding"
  \/ err = errgo.New "invalid HTTP auth contents".
Proof.
  unfold parseCredentials.
  repeat match goal with
         | |- context [if ?b then _ else _] => destruct b
         | |- context [match ?x with _ => _ end] => destruct x
         end;
    intros H; inversion H; subst; auto.
Qed.

Lemma parseCredentials_missing (req : Request) :
  Header_Get (Header req) "Authorization" = "" ->
  parseCredentials req = Fail errNoCreds.
Proof. intros H. unfold parseCredentials. rewrite H. reflexivity. Qed.

Lemma newMacaroon_configured (h : Handler) (svc : Service) (t : list Call) :
  Bakery (store h) = Some svc ->
  newMacaroon h t
  = (Ret (NewMacaroon svc "" (mintedCaveats h)),
     (t ++ [CallNewMacaroon "" (mintedCaveats h)])%list).
Proof. intros Hbakery. unfold newMacaroon. rewrite Hbakery. reflexivity. Qed.

(** ** C1 *)

(** C1. If the ACL contains "everyone", authorize returns Allow (the nil
    error) at once, whatever the handler and the request are: the outcome
    does not depend on the request's credentials, and no collaborator is
    called (the trace of calls is unchanged), so nothing is authenticated,
    parsed or verified. *)
Theorem authorize_open_acl (h : Handler) (req : Request) (acl : list string)
    (t : list Call) :
  params.Everyone ∈ acl ->
  authorize h req acl t = (Ret None, t).
Proof.
  intros Hin. apply openToEveryone_spec in Hin.
  unfold authorize. rewrite Hin. reflexivity.
Qed.

Lemma authorize_open_acl_witness :
  authorize (Sample.handler None "") (Sample.request "PUT" "Basic !!")
            ["charmers"; "everyone"] []
  = (Ret None, []).
Proof.
  apply (authorize_open_acl (Sample.handler None "")
           (Sample.request "PUT" "Basic !!") ["charmers"; "everyone"] []).
  unfold params.Everyone. right. left.
Defined.

(** ** C2 *)

(** C2. When the Basic header parses to a pair that is not the configured
    admin pair, checkRequest fails with Unauthorized and the message
    "invalid user name or password" without calling the token verifier (the
    trace is unchanged), and for every ACL that does not contain "everyone"
    authorize returns an Unauthorized error that is not DischargeRequired,
    again with no collaborator called. *)
Theorem wrong_basic_credentials (h : Handler) (req : Request)
    (user passwd : string) (t : list Call) :
  parseCredentials req = Ok (user, passwd) ->
  (user, passwd) <> (AuthUsername (config h), AuthPassword (config h)) ->
  let verr := errgo.WithCausef None (Some params.ErrUnauthorized)
                "invalid user name or password" [] in
  checkRequest h req t = (Ret (Fail verr), t)
  /\ Unauthorized verr
  /\ forall acl : list string,
       params.Everyone ∉ acl ->
       exists err,
         authorize h req acl t = (Ret (Some err), t)
         /\ Unauthorized err
         /\ isDischargeRequired err = false.
Proof.
  intros Hparse Hne verr.
  assert (checkRequest h req t = (Ret (Fail verr), t)) as Hcheck.
  { unfold checkRequest. rewrite Hparse.
    destruct (String.eqb_spec user (AuthUsername (config h))) as [Hu|Hu];
      destruct (String.eqb_spec passwd (AuthPassword (config h))) as [Hp|Hp];
      simpl; try reflexivity.
    exfalso. apply Hne. congruence. }
  split; [exact Hcheck|]. split; [reflexivity|].
  intros acl Hclosed.
  exists (errgo.Mask verr [errgo.Is params.ErrUnauthorized]).
  split; [|split; reflexivity].
  unfold authorize. rewrite (openToEveryone_closed acl Hclosed).
  rewrite (bind_outcome _ _ _ _ _ Hcheck). reflexivity.
Qed.

Lemma wrong_basic_credentials_witness :
  exists err,
    authorize (Sample.handler (Some Sample.bakery) "https://idm")
              (Sample.request "GET" (basicHeader "admin" "guess"))
              ["charmers"] []
    = (Ret (Some err), [])
    /\ Unauthorized err /\ isDischargeRequired err = false.
Proof.
  refine (proj2 (proj2 (wrong_basic_credentials
            (Sample.handler (Some Sample.bakery) "https://idm")
            (Sample.request "GET" (basicHeader "admin" "guess"))
            "admin" "guess" [] _ _)) ["charmers"] _).
  - vm_compute. reflexivity.
  - simpl. intros H. inversion H.
  - intros H. repeat (apply elem_of_cons in H as [H|H]; [discriminate H|]).
    inversion H.
Defined.

(** ** C3 *)

(** C3. For a request without an Authorization header, a configured bakery
    and identity location and an ACL without "everyone": when the token
    verification fails with an error whose cause is a verification error,
    authorize calls the verifier, then mints one macaroon, and returns the
    discharge-required error carrying the minted macaroon, the cookie path
    "/" and the verification failure (whose cause is kept); when the minting
    fails the result is the error "cannot mint macaroon" wrapping the
    minting error, which is not discharge-required.  Neither case panics. *)
Theorem authorize_discharge_required (h : Handler) (req : Request)
    (acl : list string) (svc : Service) (err : error) (t : list Call) :
  Header_Get (Header req) "Authorization" = "" ->
  Bakery (store h) = Some svc ->
  IdentityLocation (config h) <> "" ->
  params.Everyone ∉ acl ->
  CheckRequest svc req = Fail err ->
  isVerificationError (errgo.Cause err) = true ->
  let verr := errgo.Mask err [errgo.Any] in
  let t' := (t ++ [CallCheckRequest req;
                   CallNewMacaroon "" (mintedCaveats h)])%list in
  errgo.Cause verr = errgo.Cause err
  /\ match NewMacaroon svc "" (mintedCaveats h) with
     | Ok m =>
         authorize h req acl t
         = (Ret (Some (DischargeRequiredError m "/" verr)), t')
     | Fail mintErr =>
         authorize h req acl t
         = (Ret (Some (errgo.Notef mintErr "cannot mint macaroon" [])), t')
         /\ isDischargeRequired (errgo.Notef mintErr "cannot mint macaroon" [])
            = false
     end.
Proof.
  intros Hnone Hbakery Hloc Hclosed Hverify Hkind verr t'.
  split; [reflexivity|].
  assert (checkRequest h req t = (Ret (Fail verr), (t ++ [CallCheckRequest req])%list))
    as Hcheck.
  { unfold checkRequest. rewrite (parseCredentials_missing req Hnone).
    rewrite Hbakery, (eqb_false_of_ne _ _ Hloc). simpl.
    rewrite bind_record, Hverify. reflexivity. }
  assert (forall r,
             NewMacaroon svc "" (mintedCaveats h) = r ->
             authorize h req acl t
             = (Ret (Some match r with
                          | Ok m => DischargeRequiredError m "/" verr
                          | Fail mintErr =>
                              errgo.Notef mintErr "cannot mint macaroon" []
                          end), t')) as Hauth.
  { intros r Hr. unfold authorize.
    rewrite (openToEveryone_closed acl Hclosed).
    rewrite (bind_outcome _ _ _ _ _ Hcheck).
    replace (errgo.Cause verr) with (errgo.Cause err) by reflexivity.
    rewrite Hkind. change (negb true) with false. cbv iota.
    rewrite (bind_outcome _ _ _ _ _ (newMacaroon_configured h svc _ Hbakery)).
    rewrite Hr. unfold t'. rewrite <- app_assoc. simpl.
    destruct r; reflexivity. }
  destruct (NewMacaroon svc "" (mintedCaveats h)) as [m|mintErr] eqn:Hmint.
  - apply (Hauth _ eq_refl).
  - split; [apply (Hauth _ eq_refl) | reflexivity].
Qed.

Lemma authorize_discharge_required_witness :
  authorize (Sample.handler (Some Sample.bakery) "https://idm")
            (Sample.request "GET" "") ["charmers"] []
  = (Ret (Some (DischargeRequiredError {| macaroonId := "m1" |} "/"
                  (errgo.Mask Sample.noMacaroon [errgo.Any]))),
     [CallCheckRequest (Sample.request "GET" "");
      CallNewMacaroon ""
        (mintedCaveats (Sample.handler (Some Sample.bakery) "https://idm"))]).
Proof.
  refine (proj2 (authorize_discharge_required
            (Sample.handler (Some Sample.bakery) "https://idm")
            (Sample.request "GET" "") ["charmers"] Sample.bakery
            Sample.noMacaroon [] _ _ _ _ _ _)).
  - vm_compute. reflexivity.
  - reflexivity.
  - simpl. discriminate.
  - intros H. repeat (apply elem_of_cons in H as [H|H]; [discriminate H|]).
    inversion H.
  - reflexivity.
  - reflexivity.
Defined.

Lemma nameless_refused (auth : authorization) (acl : list string) :
  Admin auth = false ->
  Username auth = "" ->
  checkACLMembership auth acl = Some (errgo.New "no username declared").
Proof.
  intros Hadmin Hname. unfold checkACLMembership.
  rewrite Hadmin, Hname. reflexivity.
Qed.

(** ** C6 *)

(** C6. A non-admin authorization with an empty Username is refused with
    the error "no username declared" for every ACL and every list of
    groups: the result is fixed before the membership map is built or the
    ACL is read. *)
Theorem no_username_declared (auth : authorization) (acl : list string) :
  Admin auth = false ->
  Username auth = "" ->
  checkACLMembership auth acl = Some (errgo.New "no username declared").
Proof. apply nameless_refused. Qed.

Lemma no_username_declared_witness :
  checkACLMembership Sample.nameless ["charmers"; "everyone"]
  = Some (errgo.New "no username declared").
Proof.
  apply (no_username_declared Sample.nameless ["charmers"; "everyone"]);
    reflexivity.
Defined.

(** ** C8 *)

(** C8. When parseCredentials fails with an error other than the missing
    header error, or fails with the missing header error while the bakery
    is nil or the identity location is empty, checkRequest fails with an
    Unauthorized error with the message "authentication failed" that wraps
    the parse error, and the token verifier is not called (the trace is
    unchanged). *)
Theorem checkRequest_authentication_failed (h : Handler) (req : Request)
    (err : error) (t : list Call) :
  parseCredentials req = Fail err ->
  err <> errNoCreds
  \/ Bakery (store h) = None
  \/ IdentityLocation (config h) = "" ->
  let failure := errgo.WithCausef (Some err) (Some params.ErrUnauthorized)
                   "authentication failed" [] in
  checkRequest h req t = (Ret (Fail failure), t) /\ Unauthorized failure.
Proof.
  intros Hparse Hcond failure. split; [|reflexivity].
  unfold checkRequest. rewrite Hparse.
  destruct Hcond as [Hkind | [Hnil | Hloc]].
  - destruct (parseCredentials_errors req err Hparse) as [E | [E | [E | E]]];
      [contradiction | | |]; subst err; reflexivity.
  - rewrite Hnil. simpl. rewrite orb_true_r. reflexivity.
  - rewrite Hloc. simpl. rewrite !orb_true_r. reflexivity.
Qed.

Lemma checkRequest_authentication_failed_witness :
  checkRequest (Sample.handler (Some Sample.bakery) "")
               (Sample.request "GET" "") []
  = (Ret (Fail (errgo.WithCausef (Some errNoCreds)
                  (Some params.ErrUnauthorized) "authentication failed" [])),
     []).
Proof.
  refine (proj1 (checkRequest_authentication_failed
            (Sample.handler (Some Sample.bakery) "")
            (Sample.request "GET" "") errNoCreds [] _ _)).
  - vm_compute. reflexivity.
  - right. right. reflexivity.
Defined.

(** ** C9 *)

Lemma mutating_spec (method : string) :
  (String.eqb method "DELETE" || String.eqb method "PATCH"
   || String.eqb method "POST" || String.eqb method "PUT")
  = bool_decide (method ∈ mutatingMethods).
Proof.
  unfold mutatingMethods. symmetry.
  destruct (String.eqb_spec method "DELETE") as [->|H1]; [reflexivity|].
  destruct (String.eqb_spec method "PATCH") as [->|H2]; [reflexivity|].
  destruct (String.eqb_spec method "POST") as [->|H3]; [reflexivity|].
  destruct (String.eqb_spec method "PUT") as [->|H4]; [reflexivity|].
  apply bool_decide_eq_false. intros H.
  repeat (apply elem_of_cons in H as [H|H]; [congruence|]).
  inversion H.
Qed.

(** C9. authorizeWithPerms authorizes against the write list exactly when
    the method is one of DELETE, PATCH, POST, PUT and against the read list
    for every other method; and authorizeEntity, once the store has returned
    the resource's base entity, authorizes against its Write or Read ACL by
    the same rule. *)
Theorem method_selects_acl (h : Handler) (req : Request) :
  (forall read write : list string,
     authorizeWithPerms h req read write
     = authorize h req (if bool_decide (Method req ∈ mutatingMethods)
                        then write else read))
  /\ (forall (id : ResolvedURL) (entity : BaseEntity) (t : list Call),
        FindBaseEntity (store h) (URL id) ["acls"] = Ok entity ->
        authorizeEntity h id req t
        = authorize h req (if bool_decide (Method req ∈ mutatingMethods)
                           then Write (ACLs entity) else Read (ACLs entity))
                    (t ++ [CallFindBaseEntity (URL id) ["acls"]])%list).
Proof.
  assert (forall read write : list string,
     authorizeWithPerms h req read write
     = authorize h req (if bool_decide (Method req ∈ mutatingMethods)
                        then write else read)) as Hperms.
  { intros read write. unfold authorizeWithPerms.
    rewrite mutating_spec. reflexivity. }
  split; [exact Hperms|].
  intros id entity t Hfind. unfold authorizeEntity.
  rewrite bind_record, Hfind. rewrite Hperms. reflexivity.
Qed.

Lemma method_selects_acl_witness :
  authorizeEntity (Sample.handler None "") Sample.id
                  (Sample.request "PUT" "") []
  = authorize (Sample.handler None "") (Sample.request "PUT" "")
              ["charmers"] [CallFindBaseEntity (URL Sample.id) ["acls"]]
  /\ authorizeEntity (Sample.handler None "") Sample.id
                     (Sample.request "HEAD" "") []
     = authorize (Sample.handler None "") (Sample.request "HEAD" "")
                 ["everyone"] [CallFindBaseEntity (URL Sample.id) ["acls"]].
Proof.
  split.
  - apply (proj2 (method_selects_acl (Sample.handler None "")
                    (Sample.request "PUT" "")) Sample.id Sample.wordpress []).
    reflexivity.
  - apply (proj2 (method_selects_acl (Sample.handler None "")
                    (Sample.request "HEAD" "")) Sample.id Sample.wordpress []).
    reflexivity.
Defined.

(** ** The membership map *)

Lemma addGroups_lookup (groups : list string) (members : gmap string bool)
    (name : string) :
  default false (addGroups members groups !! name) = true
  <-> default false (members !! name) = true \/ name ∈ groups.
Proof.
  unfold addGroups. revert members.
  induction groups as [|g rest IH]; intros members; simpl.
  - split; [auto | intros [H|H]; [exact H | inversion H]].
  - rewrite IH. destruct (decide (g = name)) as [->|Hne].
    + rewrite lookup_insert_eq. simpl.
      split; [intros _; right; left | auto].
    + rewrite lookup_insert_ne by exact Hne.
      split.
      * intros [H|H]; [left; exact H | right; right; exact H].
      * intros [H|H]; [left; exact H|].
        apply elem_of_cons in H as [H|H]; [congruence | right; exact H].
Qed.

Lemma members_lookup (auth : authorization) (name : string) :
  default false
    (addGroups (<[Username auth := true]> (<[params.Everyone := true]> ∅))
               (Groups auth) !! name) = true
  <-> name ∈ membership auth.
Proof.
  rewrite addGroups_lookup. unfold membership.
  rewrite elem_of_union, elem_of_union, !elem_of_singleton, elem_of_list_to_set.
  destruct (decide (Username auth = name)) as [->|Hu].
  - rewrite lookup_insert_eq. simpl. tauto.
  - rewrite lookup_insert_ne by exact Hu.
    destruct (decide (params.Everyone = name)) as [<-|He].
    + rewrite lookup_insert_eq. simpl. tauto.
    + rewrite lookup_insert_ne by exact He. rewrite lookup_empty. simpl.
      split.
      * intros [H|H]; [discriminate | right; exact H].
      * intros [[H|H]|H]; [congruence | congruence | right; exact H].
Qed.

Lemma anyMember_spec (members : gmap string bool) (acl : list string) :
  anyMember members acl = true
  <-> exists name, name ∈ acl /\ default false (members !! name) = true.
Proof.
  induction acl as [|name rest IH]; simpl.
  - split; [discriminate | intros (n & H & _); inversion H].
  - destruct (default false (members !! name)) eqn:E.
    + split; [intros _; exists name; split; [left | exact E] | reflexivity].
    + rewrite IH. split.
      * intros (n & Hin & Hn). exists n. split; [right; exact Hin | exact Hn].
      * intros (n & Hin & Hn). apply elem_of_cons in Hin as [->|Hin].
        -- congruence.
        -- exists n. split; assumption.
Qed.

Lemma intersects_spec (auth : authorization) (acl : list string) :
  membership auth ∩ principals acl ≠ ∅
  <-> exists name, name ∈ acl /\ name ∈ membership auth.
Proof.
  split.
  - intros H. apply set_choose_L in H as [name H].
    apply elem_of_intersection in H as [Hm Hp].
    exists name. split; [|exact Hm].
    unfold principals in Hp. apply elem_of_list_to_set in Hp. exact Hp.
  - intros (name & Hin & Hm) Hempty.
    assert (name ∈ membership auth ∩ principals acl) as H.
    { apply elem_of_intersection. split; [exact Hm|].
      unfold principals. apply elem_of_list_to_set. exact Hin. }
    rewrite Hempty in H. apply not_elem_of_empty in H. exact H.
Qed.

(** The decision for an authorization that is not an admin and has a
    name. *)
Lemma checkACLMembership_named (auth : authorization) (acl : list string) :
  Admin auth = false ->
  Username auth <> "" ->
  (checkACLMembership auth acl = None
   <-> exists name, name ∈ acl /\ name ∈ membership auth)
  /\ (checkACLMembership auth acl = None
      \/ checkACLMembership auth acl
         = Some (errgo.Newf "access denied for user %q"
                   [OpString (Username auth)])).
Proof.
  intros Hadmin Hname. unfold checkACLMembership.
  rewrite Hadmin, (eqb_false_of_ne _ _ Hname).
  destruct (anyMember _ acl) eqn:E.
  - split; [|left; reflexivity].
    split; [intros _ | reflexivity].
    apply anyMember_spec in E as (name & Hin & Hm).
    exists name. split; [exact Hin | apply members_lookup; exact Hm].
  - split; [|right; reflexivity].
    split; [discriminate|].
    intros (name & Hin & Hm). exfalso.
    assert (anyMember
              (addGroups (<[Username auth := true]>
                            (<[params.Everyone := true]> ∅)) (Groups auth))
              acl = true) as E'.
    { apply anyMember_spec. exists name.
      split; [exact Hin | apply members_lookup; exact Hm]. }
    congruence.
Qed.

Lemma checkACLMembership_admin (auth : authorization) (acl : list string) :
  Admin auth = true -> checkACLMembership auth acl = None.
Proof. intros H. unfold checkACLMembership. rewrite H. reflexivity. Qed.

(** ** C4 *)

(** C4, as stated, fails: an admin is granted access to an ACL that is
    disjoint from its membership set, and a non-admin without a name is
    refused on an ACL that its groups intersect. *)
Lemma admin_and_nameless_escape_the_law :
  ~ (checkACLMembership Sample.root ["someoneelse"] = None
     <-> membership Sample.root ∩ principals ["someoneelse"] ≠ ∅)
  /\ ~ (checkACLMembership Sample.nameless ["charmers"] = None
        <-> membership Sample.nameless ∩ principals ["charmers"] ≠ ∅).
Proof.
  split.
  - intros [Hgrant _]. specialize (Hgrant eq_refl).
    apply intersects_spec in Hgrant as (name & Hin & Hm).
    apply list_elem_of_singleton in Hin. subst name.
    unfold membership in Hm. simpl in Hm.
    rewrite !elem_of_union, !elem_of_singleton in Hm.
    destruct Hm as [[Hm|Hm]|Hm]; [discriminate | discriminate |].
    apply not_elem_of_empty in Hm. exact Hm.
  - intros [_ Hgrant].
    assert (membership Sample.nameless ∩ principals ["charmers"] ≠ ∅) as H.
    { apply intersects_spec. exists "charmers".
      split; [left|]. unfold membership. simpl.
      rewrite !elem_of_union, !elem_of_singleton. right. left. reflexivity. }
    specialize (Hgrant H). discriminate Hgrant.
Qed.

(** C4, amended. For every authorization that is not an admin and has a
    non-empty Username, and every ACL: access is granted if and only if the
    set {"everyone", Username} ∪ Groups meets the set of the ACL's names;
    when the two sets are disjoint the error is "access denied for user %q"
    with the Username as operand; and the result is the same for any other
    groups and ACL with the same sets, so neither order nor multiplicity
    matters. *)
Theorem acl_membership_law (auth : authorization) (acl : list string) :
  Admin auth = false ->
  Username auth <> "" ->
  (checkACLMembership auth acl = None
   <-> membership auth ∩ principals acl ≠ ∅)
  /\ (membership auth ∩ principals acl = ∅ ->
      checkACLMembership auth acl
      = Some (errgo.Newf "access denied for user %q"
                [OpString (Username auth)]))
  /\ (forall (auth' : authorization) (acl' : list string),
        Admin auth' = false ->
        Username auth' = Username auth ->
        list_to_set (Groups auth') =@{gset string} list_to_set (Groups auth) ->
        principals acl' = principals acl ->
        checkACLMembership auth' acl' = checkACLMembership auth acl).
Proof.
  intros Hadmin Hname.
  destruct (checkACLMembership_named auth acl Hadmin Hname) as [Hiff Hcases].
  assert (checkACLMembership auth acl = None
          <-> membership auth ∩ principals acl ≠ ∅) as Hlaw.
  { rewrite Hiff. symmetry. apply intersects_spec. }
  split; [exact Hlaw|]. split.
  - intros Hempty. destruct Hcases as [Hgrant|Hdeny]; [|exact Hdeny].
    apply Hlaw in Hgrant. contradiction.
  - intros auth' acl' Hadmin' Hsame Hgroups Hacl.
    assert (Username auth' <> "") as Hname' by (rewrite Hsame; exact Hname).
    destruct (checkACLMembership_named auth' acl' Hadmin' Hname')
      as [Hiff' Hcases'].
    assert (membership auth' = membership auth) as Hmem.
    { unfold membership. rewrite Hsame, Hgroups. reflexivity. }
    assert (checkACLMembership auth' acl' = None
            <-> checkACLMembership auth acl = None) as Hboth.
    { rewrite Hlaw, Hiff', <- intersects_spec, Hmem, Hacl. reflexivity. }
    destruct Hcases as [Hg|Hd], Hcases' as [Hg'|Hd'].
    + congruence.
    + apply Hboth in Hg. congruence.
    + apply Hboth in Hg'. congruence.
    + rewrite Hd, Hd', Hsame. reflexivity.
Qed.

Lemma acl_membership_law_witness :
  (checkACLMembership Sample.bob ["alice"; "charmers"; "alice"] = None
   <-> membership Sample.bob ∩ principals ["alice"; "charmers"; "alice"] ≠ ∅).
Proof.
  apply (acl_membership_law Sample.bob ["alice"; "charmers"; "alice"]).
  - reflexivity.
  - simpl. discriminate.
Defined.

(** ** Bytes and characters *)

Lemma byte_of_ascii_range (c : ascii) : 0 <= byte_of_ascii c < 256.
Proof.
  unfold byte_of_ascii. pose proof (N_ascii_bounded c) as H. lia.
Qed.

Lemma ascii_of_byte_of_ascii (c : ascii) : ascii_of_byte (byte_of_ascii c) = c.
Proof.
  unfold ascii_of_byte, byte_of_ascii. rewrite N2Z.id. apply ascii_N_embedding.
Qed.

Lemma string_of_bytes_of_string (s : string) :
  string_of_bytes (bytes_of_string s) = s.
Proof.
  unfold string_of_bytes, bytes_of_string. rewrite map_map.
  rewrite (map_ext _ (fun c => c)) by apply ascii_of_byte_of_ascii.
  rewrite map_id. apply string_of_list_ascii_of_string.
Qed.

Lemma bytes_of_string_range (s : string) :
  Forall (fun b => 0 <= b < 256) (bytes_of_string s).
Proof.
  unfold bytes_of_string. apply Forall_map, Forall_forall.
  intros c _. apply byte_of_ascii_range.
Qed.

(** ** Shifts and masks as arithmetic *)

Lemma lor_disjoint_add (x y n : Z) :
  0 <= n -> x mod 2 ^ n = 0 -> 0 <= y < 2 ^ n -> Z.lor x y = x + y.
Proof.
  intros Hn Hx Hy.
  assert (Z.land x y = 0) as Hland.
  { apply Z.bits_inj'. intros i Hi. rewrite Z.land_spec, Z.bits_0.
    destruct (Z.lt_ge_cases i n) as [Hlt|Hge].
    - rewrite <- (Z.mod_pow2_bits_low x n i) by lia.
      rewrite Hx, Z.bits_0. reflexivity.
    - assert (y = y mod 2 ^ n) as -> by (symmetry; apply Z.mod_small; lia).
      rewrite Z.mod_pow2_bits_high by lia. apply andb_false_r. }
  rewrite <- Z.lxor_lor by exact Hland.
  symmetry. apply Z.add_nocarry_lxor. exact Hland.
Qed.

Lemma shiftl_mul (x n : Z) : 0 <= n -> Z.shiftl x n = x * 2 ^ n.
Proof. intros H. apply Z.shiftl_mul_pow2. exact H. Qed.

Lemma sextet_mod (x : Z) : Z.land x 63 = x mod 64.
Proof. change 63 with (Z.ones 6). rewrite Z.land_ones by lia. reflexivity. Qed.

Lemma byte_mod (x : Z) : byte x = x mod 256.
Proof.
  unfold byte. change 255 with (Z.ones 8). rewrite Z.land_ones by lia.
  reflexivity.
Qed.

Lemma shiftr_div (x n : Z) : 0 <= n -> Z.shiftr x n = x / 2 ^ n.
Proof. intros H. apply Z.shiftr_div_pow2. exact H. Qed.

Ltac to_arith :=
  rewrite ?sextet_mod, ?byte_mod, ?shiftr_div, ?shiftl_mul by lia;
  change (2 ^ 6) with 64 in *; change (2 ^ 8) with 256 in *;
  change (2 ^ 12) with 4096 in *; change (2 ^ 16) with 65536 in *;
  change (2 ^ 18) with 262144 in *.

(** The 24-bit value of a group of source bytes. *)
Lemma pack3 (a b c : Z) :
  0 <= a < 256 -> 0 <= b < 256 -> 0 <= c < 256 ->
  Z.lor (Z.lor (Z.shiftl a 16) (Z.shiftl b 8)) c = a * 65536 + b * 256 + c.
Proof.
  intros Ha Hb Hc. to_arith.
  rewrite (lor_disjoint_add (a * 65536) (b * 256) 16);
    [| lia | change (2 ^ 16) with 65536; Z.div_mod_to_equations; lia
     | change (2 ^ 16) with 65536; lia].
  rewrite (lor_disjoint_add (a * 65536 + b * 256) c 8);
    [| lia | change (2 ^ 8) with 256; Z.div_mod_to_equations; lia
     | change (2 ^ 8) with 256; lia].
  reflexivity.
Qed.

Lemma pack2 (a b : Z) :
  0 <= a < 256 -> 0 <= b < 256 ->
  Z.lor (Z.shiftl a 16) (Z.shiftl b 8) = a * 65536 + b * 256.
Proof.
  intros Ha Hb. to_arith.
  rewrite (lor_disjoint_add (a * 65536) (b * 256) 16);
    [| lia | change (2 ^ 16) with 65536; Z.div_mod_to_equations; lia
     | change (2 ^ 16) with 65536; lia].
  reflexivity.
Qed.

(** The value rebuilt from sextets. *)
Lemma unpack4 (d0 d1 d2 d3 : Z) :
  0 <= d0 < 64 -> 0 <= d1 < 64 -> 0 <= d2 < 64 -> 0 <= d3 < 64 ->
  Z.lor (Z.lor (Z.lor (Z.shiftl d0 18) (Z.shiftl d1 12)) (Z.shiftl d2 6)) d3
  = d0 * 262144 + d1 * 4096 + d2 * 64 + d3.
Proof.
  intros H0 H1 H2 H3. to_arith.
  rewrite (lor_disjoint_add (d0 * 262144) (d1 * 4096) 18);
    [| lia | change (2 ^ 18) with 262144; Z.div_mod_to_equations; lia
     | change (2 ^ 18) with 262144; lia].
  rewrite (lor_disjoint_add (d0 * 262144 + d1 * 4096) (d2 * 64) 12);
    [| lia | change (2 ^ 12) with 4096; Z.div_mod_to_equations; lia
     | change (2 ^ 12) with 4096; lia].
  rewrite (lor_disjoint_add (d0 * 262144 + d1 * 4096 + d2 * 64) d3 6);
    [| lia | change (2 ^ 6) with 64; Z.div_mod_to_equations; lia
     | change (2 ^ 6) with 64; lia].
  reflexivity.
Qed.

Lemma unpack3 (d0 d1 d2 : Z) :
  0 <= d0 < 64 -> 0 <= d1 < 64 -> 0 <= d2 < 64 ->
  Z.lor (Z.lor (Z.shiftl d0 18) (Z.shiftl d1 12)) (Z.shiftl d2 6)
  = d0 * 262144 + d1 * 4096 + d2 * 64.
Proof.
  intros H0 H1 H2.
  pose proof (unpack4 d0 d1 d2 0 H0 H1 H2 ltac:(lia)) as H.
  rewrite Z.lor_0_r in H. rewrite H. lia.
Qed.

Lemma unpack2 (d0 d1 : Z) :
  0 <= d0 < 64 -> 0 <= d1 < 64 ->
  Z.lor (Z.shiftl d0 18) (Z.shiftl d1 12) = d0 * 262144 + d1 * 4096.
Proof.
  intros H0 H1.
  pose proof (unpack3 d0 d1 0 H0 H1 ltac:(lia)) as H.
  rewrite Z.shiftl_0_l, Z.lor_0_r in H. rewrite H. lia.
Qed.

Lemma sextet_range (val n : Z) :
  0 <= n -> 0 <= Z.land (Z.shiftr val n) 63 < 64.
Proof.
  intros H. rewrite sextet_mod. apply Z.mod_pos_bound. lia.
Qed.

Lemma sextet_low_range (val : Z) : 0 <= Z.land val 63 < 64.
Proof. rewrite sextet_mod. apply Z.mod_pos_bound. lia. Qed.

Lemma resplit4 (v : Z) :
  0 <= v < 16777216 ->
  (v / 262144 mod 64) * 262144 + (v / 4096 mod 64) * 4096
  + (v / 64 mod 64) * 64 + v mod 64 = v.
Proof. intros H. Z.div_mod_to_equations. lia. Qed.

Lemma resplit3 (v : Z) :
  0 <= v < 16777216 -> v mod 64 = 0 ->
  (v / 262144 mod 64) * 262144 + (v / 4096 mod 64) * 4096
  + (v / 64 mod 64) * 64 = v.
Proof. intros H H0. pose proof (resplit4 v H). lia. Qed.

Lemma resplit2 (v : Z) :
  0 <= v < 16777216 -> v mod 4096 = 0 ->
  (v / 262144 mod 64) * 262144 + (v / 4096 mod 64) * 4096 = v.
Proof.
  intros H H0. pose proof (resplit4 v H) as H4.
  assert (v mod 64 = 0) as E1 by (Z.div_mod_to_equations; lia).
  assert (v / 64 mod 64 = 0) as E2 by (Z.div_mod_to_equations; lia).
  lia.
Qed.

(** ** The alphabet *)

Lemma sextets_ok : forallb sextetOk (map Z.of_nat (seq 0 64)) = true.
Proof. vm_compute. reflexivity. Qed.

Lemma sextet_ok (i : Z) : 0 <= i < 64 -> sextetOk i = true.
Proof.
  intros H. pose proof sextets_ok as Hall.
  rewrite forallb_forall in Hall. apply Hall.
  apply in_map_iff. exists (Z.to_nat i). split; [lia|].
  apply in_seq. lia.
Qed.

Lemma encode_facts (i : Z) :
  0 <= i < 64 ->
  base64.decode (base64.encode i) = i
  /\ base64.isPad (base64.encode i) = false
  /\ base64.isNewline (base64.encode i) = false
  /\ plainb (base64.encode i) = true.
Proof.
  intros H. pose proof (sextet_ok i H) as Hok. unfold sextetOk in Hok.
  apply andb_prop in Hok as [Hok Hplain].
  apply andb_prop in Hok as [Hok Hnl].
  apply andb_prop in Hok as [Hdec Hpad].
  apply Z.eqb_eq in Hdec. apply negb_true_iff in Hpad, Hnl.
  auto.
Qed.

Lemma decode_encode_valid (i : Z) :
  0 <= i < 64 -> (base64.decode (base64.encode i) =? 255) = false.
Proof.
  intros H. destruct (encode_facts i H) as [-> _]. apply Z.eqb_neq. lia.
Qed.

(** ** Decoding what was encoded *)

Lemma decodeQuanta_unfold (c0 c1 c2 c3 : ascii) (rest : list ascii) :
  base64.decodeQuanta (c0 :: c1 :: c2 :: c3 :: rest)
  = let d0 := base64.decode c0 in
    let d1 := base64.decode c1 in
    let d2 := base64.decode c2 in
    let d3 := base64.decode c3 in
    if base64.isPad c2 && base64.isPad c3 && base64.isNil rest then
      if (d0 =? 255) || (d1 =? 255) then None
      else Some [byte (Z.shiftr (Z.lor (Z.shiftl d0 18) (Z.shiftl d1 12)) 16)]
    else if base64.isPad c3 && base64.isNil rest then
      if (d0 =? 255) || (d1 =? 255) || (d2 =? 255) then None
      else
        let val :=
          Z.lor (Z.lor (Z.shiftl d0 18) (Z.shiftl d1 12)) (Z.shiftl d2 6) in
        Some [byte (Z.shiftr val 16); byte (Z.shiftr val 8)]
    else
      if (d0 =? 255) || (d1 =? 255) || (d2 =? 255) || (d3 =? 255) then None
      else
        let val :=
          Z.lor (Z.lor (Z.lor (Z.shiftl d0 18) (Z.shiftl d1 12))
                       (Z.shiftl d2 6)) d3 in
        match base64.decodeQuanta rest with
        | Some out =>
            Some (byte (Z.shiftr val 16) :: byte (Z.shiftr val 8)
                  :: byte val :: out)
        | None => None
        end.
Proof. reflexivity. Qed.

Lemma decode_quantum1 (a : Z) :
  0 <= a < 256 ->
  base64.decodeQuanta (base64.Encode [a]) = Some [a].
Proof.
  intros Ha. unfold base64.Encode.
  set (val := Z.shiftl a 16).
  assert (val = a * 65536) as Hval by (unfold val; to_arith; reflexivity).
  pose proof (sextet_range val 18 ltac:(lia)) as R0.
  pose proof (sextet_range val 12 ltac:(lia)) as R1.
  rewrite decodeQuanta_unfold. cbv zeta.
  destruct (encode_facts _ R0) as (-> & _).
  destruct (encode_facts _ R1) as (-> & _).
  change (base64.isPad base64.StdPadding) with true.
  change (base64.isNil (@nil ascii)) with true. cbv iota beta. simpl andb.
  cbv iota.
  replace (Z.land (Z.shiftr val 18) 63 =? 255) with false
    by (symmetry; apply Z.eqb_neq; lia).
  replace (Z.land (Z.shiftr val 12) 63 =? 255) with false
    by (symmetry; apply Z.eqb_neq; lia).
  simpl orb. cbv iota.
  rewrite unpack2 by assumption. f_equal. f_equal.
  to_arith. rewrite resplit2 by (subst val; Z.div_mod_to_equations; lia).
  subst val. Z.div_mod_to_equations. lia.
Qed.

Lemma decode_quantum2 (a b : Z) :
  0 <= a < 256 -> 0 <= b < 256 ->
  base64.decodeQuanta (base64.Encode [a; b]) = Some [a; b].
Proof.
  intros Ha Hb. unfold base64.Encode.
  rewrite (pack2 a b Ha Hb).
  set (val := a * 65536 + b * 256).
  pose proof (sextet_range val 18 ltac:(lia)) as R0.
  pose proof (sextet_range val 12 ltac:(lia)) as R1.
  pose proof (sextet_range val 6 ltac:(lia)) as R2.
  rewrite decodeQuanta_unfold. cbv zeta.
  destruct (encode_facts _ R0) as (-> & _).
  destruct (encode_facts _ R1) as (-> & _).
  destruct (encode_facts _ R2) as (-> & -> & _).
  change (base64.isPad base64.StdPadding) with true.
  change (base64.isNil (@nil ascii)) with true. simpl andb. cbv iota.
  replace (Z.land (Z.shiftr val 18) 63 =? 255) with false
    by (symmetry; apply Z.eqb_neq; lia).
  replace (Z.land (Z.shiftr val 12) 63 =? 255) with false
    by (symmetry; apply Z.eqb_neq; lia).
  replace (Z.land (Z.shiftr val 6) 63 =? 255) with false
    by (symmetry; apply Z.eqb_neq; lia).
  simpl orb. cbv iota.
  rewrite unpack3 by assumption.
  to_arith. rewrite resplit3 by (subst val; Z.div_mod_to_equations; lia).
  subst val. f_equal. f_equal; [|f_equal]; Z.div_mod_to_equations; lia.
Qed.

Lemma decode_quantum3 (a b c : Z) (rest : list Z) :
  0 <= a < 256 -> 0 <= b < 256 -> 0 <= c < 256 ->
  base64.decodeQuanta (base64.Encode (a :: b :: c :: rest))
  = match base64.decodeQuanta (base64.Encode rest) with
    | Some out => Some (a :: b :: c :: out)
    | None => None
    end.
Proof.
  intros Ha Hb Hc.
  change (base64.Encode (a :: b :: c :: rest))
    with (let val := Z.lor (Z.lor (Z.shiftl a 16) (Z.shiftl b 8)) c in
          base64.encode (Z.land (Z.shiftr val 18) 63)
          :: base64.encode (Z.land (Z.shiftr val 12) 63)
          :: base64.encode (Z.land (Z.shiftr val 6) 63)
          :: base64.encode (Z.land val 63)
          :: base64.Encode rest).
  cbv zeta. rewrite (pack3 a b c Ha Hb Hc).
  set (val := a * 65536 + b * 256 + c).
  pose proof (sextet_range val 18 ltac:(lia)) as R0.
  pose proof (sextet_range val 12 ltac:(lia)) as R1.
  pose proof (sextet_range val 6 ltac:(lia)) as R2.
  pose proof (sextet_low_range val) as R3.
  rewrite decodeQuanta_unfold. cbv zeta.
  destruct (encode_facts _ R0) as (-> & _).
  destruct (encode_facts _ R1) as (-> & _).
  destruct (encode_facts _ R2) as (-> & -> & _).
  destruct (encode_facts _ R3) as (-> & -> & _).
  simpl andb. cbv iota.
  replace (Z.land (Z.shiftr val 18) 63 =? 255) with false
    by (symmetry; apply Z.eqb_neq; lia).
  replace (Z.land (Z.shiftr val 12) 63 =? 255) with false
    by (symmetry; apply Z.eqb_neq; lia).
  replace (Z.land (Z.shiftr val 6) 63 =? 255) with false
    by (symmetry; apply Z.eqb_neq; lia).
  replace (Z.land val 63 =? 255) with false
    by (symmetry; apply Z.eqb_neq; lia).
  simpl orb. cbv iota.
  rewrite unpack4 by assumption.
  to_arith. rewrite resplit4 by (subst val; lia).
  replace (val / 65536 mod 256) with a
    by (subst val; Z.div_mod_to_equations; lia).
  replace (val / 256 mod 256) with b
    by (subst val; Z.div_mod_to_equations; lia).
  replace (val mod 256) with c
    by (subst val; Z.div_mod_to_equations; lia).
  reflexivity.
Qed.

(** Induction on a list three elements at a time. *)
Lemma list_ind3 {A} (P : list A -> Prop) :
  P [] ->
  (forall a, P [a]) ->
  (forall a b, P [a; b]) ->
  (forall a b c rest, P rest -> P (a :: b :: c :: rest)) ->
  forall l, P l.
Proof.
  intros H0 H1 H2 H3.
  assert (forall l, P l /\ (forall a, P (a :: l)) /\ (forall a b, P (a :: b :: l)))
    as H.
  { induction l as [|x l (IH0 & IH1 & IH2)].
    - auto.
    - split; [apply IH1|]. split; [intros a; apply IH2|].
      intros a b. apply H3. exact IH0. }
  intros l. apply (H l).
Qed.

Lemma decodeQuanta_Encode (src : list Z) :
  Forall (fun b => 0 <= b < 256) src ->
  base64.decodeQuanta (base64.Encode src) = Some src.
Proof.
  induction src as [|a|a b|a b c rest IH] using list_ind3; intros Hsrc.
  - reflexivity.
  - inversion Hsrc; subst. apply decode_quantum1. assumption.
  - inversion Hsrc as [|? ? Ha Hrest]; subst.
    inversion Hrest; subst. apply decode_quantum2; assumption.
  - inversion Hsrc as [|? ? Ha H1]; subst.
    inversion H1 as [|? ? Hb H2]; subst.
    inversion H2 as [|? ? Hc H3]; subst.
    rewrite decode_quantum3 by assumption.
    rewrite (IH H3). reflexivity.
Qed.

(** The characters of an encoding: no new line, no white space. *)
Lemma Encode_chars (src : list Z) :
  Forall (fun c => base64.isNewline c = false /\ plainb c = true)
         (base64.Encode src).
Proof.
  assert (forall val n, 0 <= n ->
            base64.isNewline (base64.encode (Z.land (Z.shiftr val n) 63)) = false
            /\ plainb (base64.encode (Z.land (Z.shiftr val n) 63)) = true)
    as Hchar.
  { intros val n Hn.
    destruct (encode_facts _ (sextet_range val n Hn)) as (_ & _ & H1 & H2).
    auto. }
  assert (forall val,
            base64.isNewline (base64.encode (Z.land val 63)) = false
            /\ plainb (base64.encode (Z.land val 63)) = true)
    as Hlow.
  { intros val.
    destruct (encode_facts _ (sextet_low_range val)) as (_ & _ & H1 & H2).
    auto. }
  assert (base64.isNewline base64.StdPadding = false
          /\ plainb base64.StdPadding = true) as Hpad
    by (split; reflexivity).
  induction src as [|a|a b|a b c rest IH] using list_ind3.
  - constructor.
  - unfold base64.Encode.
    repeat (constructor; [first [apply Hchar; lia | exact Hpad]|]).
    constructor.
  - unfold base64.Encode.
    repeat (constructor; [first [apply Hchar; lia | exact Hpad]|]).
    constructor.
  - change (base64.Encode (a :: b :: c :: rest))
      with (let val := Z.lor (Z.lor (Z.shiftl a 16) (Z.shiftl b 8)) c in
            base64.encode (Z.land (Z.shiftr val 18) 63)
            :: base64.encode (Z.land (Z.shiftr val 12) 63)
            :: base64.encode (Z.land (Z.shiftr val 6) 63)
            :: base64.encode (Z.land val 63)
            :: base64.Encode rest).
    cbv zeta.
    repeat (constructor; [first [apply Hchar; lia | apply Hlow]|]).
    exact IH.
Qed.

Lemma filter_all {A} (p : A -> bool) (l : list A) :
  Forall (fun x => p x = true) l -> List.filter p l = l.
Proof.
  induction 1 as [|x l Hx _ IH]; simpl; [reflexivity|].
  rewrite Hx, IH. reflexivity.
Qed.

Lemma DecodeString_EncodeToString (src : list Z) :
  Forall (fun b => 0 <= b < 256) src ->
  base64.DecodeString (base64.EncodeToString src) = Some src.
Proof.
  intros Hsrc. unfold base64.DecodeString, base64.EncodeToString.
  rewrite list_ascii_of_string_of_list_ascii.
  rewrite filter_all; [apply decodeQuanta_Encode; exact Hsrc|].
  eapply Forall_impl; [apply Encode_chars|].
  intros c [Hnl _]. simpl. rewrite Hnl. reflexivity.
Qed.

(** ** Fields and SplitN on a Basic header *)

Lemma spaceWidth_plain (c : ascii) (s : string) :
  plainb c = true -> strings.spaceWidth (String c s) = 0%nat.
Proof.
  unfold plainb. intros H. apply negb_true_iff in H.
  repeat (apply orb_false_elim in H as [H ?]).
  unfold strings.spaceWidth. cbv zeta.
  repeat match goal with
         | E : _ = false |- _ => rewrite E; clear E
         end.
  simpl. destruct s as [|c1 [|c2 s2]]; reflexivity.
Qed.

Lemma append_cons (x : ascii) (a b : string) :
  String x a +:+ b = String x (a +:+ b).
Proof. reflexivity. Qed.

Lemma append_nil_r (a : string) : a +:+ "" = a.
Proof.
  induction a as [|x a IH]; [reflexivity|].
  rewrite append_cons, IH. reflexivity.
Qed.

Lemma append_assoc (a b c : string) : (a +:+ b) +:+ c = a +:+ (b +:+ c).
Proof.
  induction a as [|x a IH]; [reflexivity|].
  rewrite !append_cons, IH. reflexivity.
Qed.

Lemma fieldsFrom_plain (s cur : string) :
  Forall (fun c => plainb c = true) (list_ascii_of_string s) ->
  strings.fieldsFrom 0 cur s = strings.flush (cur +:+ s).
Proof.
  revert cur. induction s as [|c s IH]; intros cur Hs.
  - simpl. rewrite append_nil_r. reflexivity.
  - simpl in Hs. inversion Hs as [|? ? Hc Hrest]; subst.
    change (strings.fieldsFrom 0 cur (String c s))
      with (match strings.spaceWidth (String c s) with
            | O => strings.fieldsFrom 0 (cur +:+ String c EmptyString) s
            | S k => (strings.flush cur
                      ++ strings.fieldsFrom k EmptyString s)%list
            end).
    rewrite (spaceWidth_plain c s Hc), (IH _ Hrest).
    rewrite (append_assoc cur (String c EmptyString) s). reflexivity.
Qed.

Lemma fieldsFrom_plain_prefix (prefix cur rest : string) :
  Forall (fun c => plainb c = true) (list_ascii_of_string prefix) ->
  strings.fieldsFrom 0 cur (prefix +:+ rest)
  = strings.fieldsFrom 0 (cur +:+ prefix) rest.
Proof.
  revert cur. induction prefix as [|c prefix IH]; intros cur Hplain.
  - rewrite append_nil_r. reflexivity.
  - simpl in Hplain. inversion Hplain as [|? ? Hc Hrest]; subst.
    rewrite append_cons.
    change (strings.fieldsFrom 0 cur (String c (prefix +:+ rest)))
      with (match strings.spaceWidth (String c (prefix +:+ rest)) with
            | O => strings.fieldsFrom 0 (cur +:+ String c EmptyString)
                     (prefix +:+ rest)
            | S k => (strings.flush cur
                      ++ strings.fieldsFrom k EmptyString (prefix +:+ rest))%list
            end).
    rewrite (spaceWidth_plain c _ Hc), (IH _ Hrest).
    rewrite (append_assoc cur (String c EmptyString) prefix). reflexivity.
Qed.

Lemma Fields_basicHeader (encoded : list ascii) :
  encoded <> [] ->
  Forall (fun c => plainb c = true) encoded ->
  strings.Fields ("Basic " +:+ string_of_list_ascii encoded)
  = ["Basic"; string_of_list_ascii encoded].
Proof.
  intros Hne Hplain.
  unfold strings.Fields.
  change ("Basic " +:+ string_of_list_ascii encoded)
    with ("Basic" +:+ String " "%char (string_of_list_ascii encoded)).
  rewrite fieldsFrom_plain_prefix
    by (repeat constructor).
  change (strings.fieldsFrom 0 ("" +:+ "Basic")
            (String " "%char (string_of_list_ascii encoded)))
    with ("Basic" :: strings.fieldsFrom 0 "" (string_of_list_ascii encoded)).
  rewrite fieldsFrom_plain
    by (rewrite list_ascii_of_string_of_list_ascii; exact Hplain).
  destruct encoded as [|c rest]; [contradiction | reflexivity].
Qed.

Lemma cut_first (sep : ascii) (before after : string) :
  sep ∉ list_ascii_of_string before ->
  strings.cut sep (before +:+ String sep after) = Some (before, after).
Proof.
  induction before as [|c before IH]; intros Hfree.
  - change (EmptyString +:+ String sep after) with (String sep after).
    simpl. rewrite Ascii.eqb_refl. reflexivity.
  - simpl in Hfree. apply not_elem_of_cons in Hfree as [Hc Hrest].
    rewrite append_cons. simpl.
    destruct (Ascii.eqb_spec c sep) as [->|_]; [contradiction|].
    rewrite (IH Hrest). reflexivity.
Qed.

Lemma Encode_nonempty (src : list Z) : src <> [] -> base64.Encode src <> [].
Proof.
  destruct src as [|a [|b [|c rest]]]; [contradiction | | |];
    intros _; discriminate.
Qed.

(** Extraction inverts the wire form of Basic credentials. *)
Lemma parseCredentials_basicHeader (req : Request) (username password : string) :
  ":"%char ∉ list_ascii_of_string username ->
  Header_Get (Header req) "Authorization" = basicHeader username password ->
  parseCredentials req = Ok (username, password).
Proof.
  intros Hfree Hheader. unfold parseCredentials. rewrite Hheader.
  unfold basicHeader, base64.EncodeToString.
  set (challenge := username +:+ ":" +:+ password).
  change (String.eqb ("Basic " +:+ ?e) "") with false. cbv iota.
  rewrite Fields_basicHeader.
  - change (String.eqb "Basic" "Basic") with true. simpl negb. cbv iota.
    fold (base64.EncodeToString (bytes_of_string challenge)).
    rewrite DecodeString_EncodeToString by apply bytes_of_string_range.
    rewrite string_of_bytes_of_string. unfold challenge, strings.SplitN2.
    change (":" +:+ password) with (String ":"%char password).
    rewrite (cut_first _ _ _ Hfree). reflexivity.
  - apply Encode_nonempty. unfold challenge, bytes_of_string.
    destruct username; discriminate.
  - eapply Forall_impl; [apply Encode_chars|]. intros c [_ H]. exact H.
Qed.

(** ** C7 *)

(** C7. For every username without ':' and every password, which may
    contain ':', a request whose Authorization header is
    "Basic " followed by base64(username ":" password) parses, and
    parseCredentials returns exactly that username and password: the
    decoded challenge is split at its first ':' only. *)
Theorem basic_credentials_round_trip (req : Request)
    (username password : string) :
  ":"%char ∉ list_ascii_of_string username ->
  Header_Get (Header req) "Authorization" = basicHeader username password ->
  parseCredentials req = Ok (username, password).
Proof. apply parseCredentials_basicHeader. Qed.

Lemma basic_credentials_round_trip_witness :
  parseCredentials (Sample.request "GET" "Basic YWxpY2U6cGE6c3M=")
  = Ok ("alice", "pa:ss").
Proof.
  apply (basic_credentials_round_trip
           (Sample.request "GET" "Basic YWxpY2U6cGE6c3M=") "alice" "pa:ss").
  - intros H. repeat (apply elem_of_cons in H as [H|H]; [discriminate H|]).
    inversion H.
  - vm_compute. reflexivity.
Defined.

(** ** C5 *)

Lemma authorize_admin (h : Handler) (req : Request) (acl : list string)
    (t : list Call) :
  parseCredentials req = Ok (AuthUsername (config h), AuthPassword (config h)) ->
  authorize h req acl t = (Ret None, t).
Proof.
  intros Hparse.
  assert (checkRequest h req t
          = (Ret (Ok {| Admin := true; Username := ""; Groups := [] |}), t))
    as Hcheck.
  { unfold checkRequest. rewrite Hparse, !String.eqb_refl. reflexivity. }
  unfold authorize. destruct (openToEveryone acl); [reflexivity|].
  rewrite (bind_outcome _ _ _ _ _ Hcheck). reflexivity.
Qed.

(** C5. An authorization with Admin=true passes checkACLMembership for
    every ACL, the empty one and those that name neither the user nor a
    group included.  A request whose credentials parse to the configured
    admin pair is allowed by authorize against ["someoneelse"] with no
    collaborator called; so is a request whose header is the wire form of
    the configured pair, when the admin username has no ':'. *)
Theorem admin_bypass :
  (forall (auth : authorization) (acl : list string),
     Admin auth = true -> checkACLMembership auth acl = None)
  /\ (forall (h : Handler) (req : Request) (t : list Call),
        parseCredentials req
        = Ok (AuthUsername (config h), AuthPassword (config h)) ->
        authorize h req ["someoneelse"] t = (Ret None, t))
  /\ (forall (h : Handler) (req : Request) (t : list Call),
        ":"%char ∉ list_ascii_of_string (AuthUsername (config h)) ->
        Header_Get (Header req) "Authorization"
        = basicHeader (AuthUsername (config h)) (AuthPassword (config h)) ->
        authorize h req ["someoneelse"] t = (Ret None, t)).
Proof.
  split; [exact checkACLMembership_admin|]. split.
  - intros h req t Hparse. apply authorize_admin. exact Hparse.
  - intros h req t Hfree Hheader. apply authorize_admin.
    apply parseCredentials_basicHeader; assumption.
Qed.

Lemma admin_bypass_witness :
  checkACLMembership Sample.root [] = None
  /\ authorize (Sample.handler None "")
               (Sample.request "GET" (basicHeader "admin" "s3cret"))
               ["someoneelse"] []
     = (Ret None, []).
Proof.
  split.
  - apply (proj1 admin_bypass Sample.root []). reflexivity.
  - apply (proj2 (proj2 admin_bypass) (Sample.handler None "")
             (Sample.request "GET" (basicHeader "admin" "s3cret")) []).
    + intros H. repeat (apply elem_of_cons in H as [H|H]; [discriminate H|]).
      inversion H.
    + vm_compute. reflexivity.
Defined.

(** ** C10 *)

(** C10, as stated, fails: bob is not an admin, the ACL contains "admin",
    access is granted (by the entry "bob"), and neither his Username nor
    any of his Groups is "admin". *)
Lemma other_entry_grants_beside_admin :
  ~ (Admin Sample.bob = false ->
     params.Admin ∈ [params.Admin; "bob"] ->
     checkACLMembership Sample.bob [params.Admin; "bob"] = None ->
     Username Sample.bob = params.Admin
     \/ params.Admin ∈ Groups Sample.bob).
Proof.
  intros H.
  destruct (H eq_refl ltac:(left) eq_refl) as [Hname|Hgroup].
  - discriminate Hname.
  - simpl in Hgroup. apply list_elem_of_singleton in Hgroup.
    discriminate Hgroup.
Qed.

(** C10, amended. The entry "admin" is matched like any other name.  For
    every authorization that is not an admin: an ACL containing "admin"
    grants access only if the Username or one of the Groups is literally
    "admin", or another entry of the ACL is in the membership set
    {"everyone", Username} ∪ Groups; and the ACL ["admin"] grants access
    exactly when the Username is not empty and the Username or one of the
    Groups is "admin".  An authorization with Admin=true is granted access
    whatever the ACL contains. *)
Theorem admin_entry_not_special :
  (forall (auth : authorization) (acl : list string),
     Admin auth = false ->
     params.Admin ∈ acl ->
     checkACLMembership auth acl = None ->
     (Username auth = params.Admin \/ params.Admin ∈ Groups auth)
     \/ exists name,
          name ∈ acl /\ name <> params.Admin /\ name ∈ membership auth)
  /\ (forall auth : authorization,
        Admin auth = false ->
        (checkACLMembership auth [params.Admin] = None
         <-> Username auth <> ""
             /\ (Username auth = params.Admin
                 \/ params.Admin ∈ Groups auth)))
  /\ (forall (auth : authorization) (acl : list string),
        Admin auth = true -> checkACLMembership auth acl = None).
Proof.
  assert (forall auth : authorization,
            params.Admin ∈ membership auth
            <-> Username auth = params.Admin \/ params.Admin ∈ Groups auth)
    as Hliteral.
  { intros auth. unfold membership.
    rewrite !elem_of_union, !elem_of_singleton, elem_of_list_to_set.
    split.
    - intros [[H|H]|H]; [discriminate H | left; congruence | right; exact H].
    - intros [H|H]; [left; right; congruence | right; exact H]. }
  assert (forall (auth : authorization) (acl : list string),
            Admin auth = false -> Username auth = "" ->
            checkACLMembership auth acl <> None) as Hnameless.
  { intros auth acl Hadmin Hname.
    rewrite (nameless_refused auth acl Hadmin Hname). discriminate. }
  split; [|split; [|exact checkACLMembership_admin]].
  - intros auth acl Hadmin Hin Hgrant.
    destruct (decide (Username auth = "")) as [Hname|Hname].
    { exfalso. exact (Hnameless auth acl Hadmin Hname Hgrant). }
    apply (checkACLMembership_named auth acl Hadmin Hname) in Hgrant
      as (name & Hacl & Hmem).
    destruct (decide (name = params.Admin)) as [->|Hother].
    + left. apply Hliteral. exact Hmem.
    + right. exists name. auto.
  - intros auth Hadmin. split.
    + intros Hgrant.
      destruct (decide (Username auth = "")) as [Hname|Hname].
      { exfalso. exact (Hnameless auth _ Hadmin Hname Hgrant). }
      split; [exact Hname|].
      apply (checkACLMembership_named auth _ Hadmin Hname) in Hgrant
        as (name & Hacl & Hmem).
      apply list_elem_of_singleton in Hacl. subst name.
      apply Hliteral. exact Hmem.
    + intros [Hname Hlit].
      apply (checkACLMembership_named auth _ Hadmin Hname).
      exists params.Admin. split; [left | apply Hliteral; exact Hlit].
Qed.

Lemma admin_entry_not_special_witness :
  (Username Sample.bob = params.Admin \/ params.Admin ∈ Groups Sample.bob)
  \/ exists name,
       name ∈ [params.Admin; "bob"] /\ name <> params.Admin
       /\ name ∈ membership Sample.bob.
Proof.
  apply (proj1 admin_entry_not_special Sample.bob [params.Admin; "bob"]).
  - reflexivity.
  - left.
  - reflexivity.
Defined.

(** * Further properties of auth.go *)

(** ** What a successful parse says about the header *)

Lemma cut_inv (sep : ascii) (s before after : string) :
  strings.cut sep s = Some (before, after) ->
  s = before +:+ String sep after
  /\ sep ∉ list_ascii_of_string before.
Proof.
  revert before. induction s as [|c s IH]; intros before Hcut.
  - discriminate Hcut.
  - simpl in Hcut. destruct (Ascii.eqb_spec c sep) as [->|Hne].
    + inversion Hcut; subst. split; [reflexivity|]. simpl. apply not_elem_of_nil.
    + destruct (strings.cut sep s) as [[b a]|] eqn:E; [|discriminate Hcut].
      inversion Hcut; subst. destruct (IH b eq_refl) as [-> Hfree].
      split; [rewrite append_cons; reflexivity|].
      simpl. apply not_elem_of_cons. split; [congruence | exact Hfree].
Qed.

Lemma parseCredentials_inv (req : Request) (username password : string) :
  parseCredentials req = Ok (username, password) ->
  exists (encoded : string) (challenge : list Z),
    strings.Fields (Header_Get (Header req) "Authorization")
    = ["Basic"; encoded]
    /\ base64.DecodeString encoded = Some challenge
    /\ strings.cut ":"%char (string_of_bytes challenge)
       = Some (username, password).
Proof.
  unfold parseCredentials.
  destruct (String.eqb (Header_Get (Header req) "Authorization") "");
    [discriminate|].
  destruct (strings.Fields (Header_Get (Header req) "Authorization"))
    as [|scheme [|encoded [|extra rest]]]; try discriminate.
  destruct (String.eqb_spec scheme "Basic") as [->|_]; [|discriminate].
  simpl negb. cbv iota.
  destruct (base64.DecodeString encoded) as [challenge|] eqn:Hdec;
    [|discriminate].
  unfold strings.SplitN2.
  destruct (strings.cut ":"%char (string_of_bytes challenge))
    as [[before after]|] eqn:Hcut; [|discriminate].
  intros H. inversion H; subst.
  exists encoded, challenge. auto.
Qed.

(** X1. When parseCredentials succeeds, the header has exactly the two
    fields "Basic" and a base64 text, that text decodes to
    username ":" password, and the username holds no ':'. *)
Theorem parseCredentials_sound (req : Request) (username password : string) :
  parseCredentials req = Ok (username, password) ->
  (":"%char ∉ list_ascii_of_string username)
  /\ exists (encoded : string) (challenge : list Z),
       strings.Fields (Header_Get (Header req) "Authorization")
       = ["Basic"; encoded]
       /\ base64.DecodeString encoded = Some challenge
       /\ string_of_bytes challenge = username +:+ ":" +:+ password.
Proof.
  intros Hparse.
  destruct (parseCredentials_inv req username password Hparse)
    as (encoded & challenge & Hfields & Hdec & Hcut).
  destruct (cut_inv _ _ _ _ Hcut) as [Hsplit Hfree].
  split; [exact Hfree|]. exists encoded, challenge. auto.
Qed.

Lemma parseCredentials_sound_witness :
  ":"%char ∉ list_ascii_of_string "alice".
Proof.
  refine (proj1 (parseCredentials_sound
                   (Sample.request "GET" "Basic YWxpY2U6cGE6c3M=")
                   "alice" "pa:ss" _)).
  vm_compute. reflexivity.
Defined.

(** ** White space around the two fields of the header *)

Lemma spaceWidth_space (c : ascii) (s : string) :
  asciiSpaceb c = true -> strings.spaceWidth (String c s) = 1%nat.
Proof.
  unfold asciiSpaceb. cbv zeta. intros H.
  unfold strings.spaceWidth. cbv zeta. rewrite H. reflexivity.
Qed.

Lemma fieldsFrom_space (c : ascii) (cur rest : string) :
  asciiSpaceb c = true ->
  strings.fieldsFrom 0 cur (String c rest)
  = (strings.flush cur ++ strings.fieldsFrom 0 EmptyString rest)%list.
Proof.
  intros Hc.
  change (strings.fieldsFrom 0 cur (String c rest))
    with (match strings.spaceWidth (String c rest) with
          | O => strings.fieldsFrom 0 (cur +:+ String c EmptyString) rest
          | S k => (strings.flush cur
                    ++ strings.fieldsFrom k EmptyString rest)%list
          end).
  rewrite (spaceWidth_space c rest Hc). reflexivity.
Qed.

Lemma fieldsFrom_skip_spaces (ws rest : string) :
  Forall (fun c => asciiSpaceb c = true) (list_ascii_of_string ws) ->
  strings.fieldsFrom 0 EmptyString (ws +:+ rest)
  = strings.fieldsFrom 0 EmptyString rest.
Proof.
  induction ws as [|c ws IH]; intros Hws; [reflexivity|].
  simpl in Hws. inversion Hws as [|? ? Hc Hrest]; subst.
  rewrite append_cons, (fieldsFrom_space c _ _ Hc). simpl.
  apply IH. exact Hrest.
Qed.

Lemma fieldsFrom_end_field (ws cur rest : string) :
  ws <> EmptyString ->
  Forall (fun c => asciiSpaceb c = true) (list_ascii_of_string ws) ->
  strings.fieldsFrom 0 cur (ws +:+ rest)
  = (strings.flush cur ++ strings.fieldsFrom 0 EmptyString rest)%list.
Proof.
  intros Hne Hws. destruct ws as [|c ws]; [contradiction|].
  simpl in Hws. inversion Hws as [|? ? Hc Hrest]; subst.
  rewrite append_cons, (fieldsFrom_space c _ _ Hc).
  rewrite (fieldsFrom_skip_spaces ws rest Hrest). reflexivity.
Qed.

Lemma fieldsFrom_trailing (ws cur : string) :
  Forall (fun c => asciiSpaceb c = true) (list_ascii_of_string ws) ->
  strings.fieldsFrom 0 cur ws = strings.flush cur.
Proof.
  intros Hws. destruct ws as [|c ws]; [reflexivity|].
  pose proof (fieldsFrom_end_field (String c ws) cur EmptyString
                ltac:(discriminate) Hws) as H.
  rewrite append_nil_r in H. rewrite H. simpl. apply app_nil_r.
Qed.

Lemma Fields_padded (lead gap trail : string) (encoded : list ascii) :
  Forall (fun c => asciiSpaceb c = true) (list_ascii_of_string lead) ->
  Forall (fun c => asciiSpaceb c = true) (list_ascii_of_string gap) ->
  Forall (fun c => asciiSpaceb c = true) (list_ascii_of_string trail) ->
  gap <> EmptyString ->
  encoded <> [] ->
  Forall (fun c => plainb c = true) encoded ->
  strings.Fields
    (lead +:+ "Basic" +:+ gap +:+ string_of_list_ascii encoded +:+ trail)
  = ["Basic"; string_of_list_ascii encoded].
Proof.
  intros Hlead Hgap Htrail Hne Hencoded Hplain. unfold strings.Fields.
  rewrite (fieldsFrom_skip_spaces lead _ Hlead).
  rewrite fieldsFrom_plain_prefix by (repeat constructor).
  rewrite (fieldsFrom_end_field gap _ _ Hne Hgap).
  rewrite fieldsFrom_plain_prefix
    by (rewrite list_ascii_of_string_of_list_ascii; exact Hplain).
  rewrite (fieldsFrom_trailing trail _ Htrail).
  destruct encoded as [|c rest]; [contradiction | reflexivity].
Qed.

(** Parsing a header whose fields are known. *)
Lemma parseCredentials_of_fields (req : Request) (username password : string) :
  Header_Get (Header req) "Authorization" <> "" ->
  strings.Fields (Header_Get (Header req) "Authorization")
  = ["Basic";
     base64.EncodeToString (bytes_of_string (username +:+ ":" +:+ password))] ->
  ":"%char ∉ list_ascii_of_string username ->
  parseCredentials req = Ok (username, password).
Proof.
  intros Hne Hfields Hfree. unfold parseCredentials.
  rewrite (eqb_false_of_ne _ _ Hne), Hfields.
  change (String.eqb "Basic" "Basic") with true. simpl negb. cbv iota.
  rewrite DecodeString_EncodeToString by apply bytes_of_string_range.
  rewrite string_of_bytes_of_string. unfold strings.SplitN2.
  change (":" +:+ password) with (String ":"%char password).
  rewrite (cut_first _ _ _ Hfree). reflexivity.
Qed.

Lemma append_nonempty_r (a b : string) :
  b <> EmptyString -> a +:+ b <> EmptyString.
Proof.
  intros Hb. destruct a as [|c a]; [exact Hb | discriminate].
Qed.

(** X2. White space around the fields does not matter: for a username
    without ':', a header made of any ASCII white space, "Basic", at least
    one white space byte, base64(username ":" password) and any ASCII white
    space again parses to that username and password. *)
Theorem parseCredentials_white_space (req : Request)
    (lead gap trail username password : string) :
  Forall (fun c => asciiSpaceb c = true) (list_ascii_of_string lead) ->
  Forall (fun c => asciiSpaceb c = true) (list_ascii_of_string gap) ->
  Forall (fun c => asciiSpaceb c = true) (list_ascii_of_string trail) ->
  gap <> EmptyString ->
  ":"%char ∉ list_ascii_of_string username ->
  Header_Get (Header req) "Authorization"
  = lead +:+ "Basic" +:+ gap
    +:+ base64.EncodeToString (bytes_of_string (username +:+ ":" +:+ password))
    +:+ trail ->
  parseCredentials req = Ok (username, password).
Proof.
  intros Hlead Hgap Htrail Hne Hfree Hheader.
  assert (base64.Encode (bytes_of_string (username +:+ ":" +:+ password)) <> [])
    as Hencoded.
  { apply Encode_nonempty. unfold bytes_of_string.
    destruct username; discriminate. }
  apply parseCredentials_of_fields; [| |exact Hfree].
  - rewrite Hheader. apply append_nonempty_r. discriminate.
  - rewrite Hheader. unfold base64.EncodeToString.
    apply Fields_padded; try assumption.
    eapply Forall_impl; [apply Encode_chars|]. intros c [_ H]. exact H.
Qed.

Lemma parseCredentials_white_space_witness :
  parseCredentials
    (Sample.request "GET"
       (String "009"%char " Basic  " +:+ "YWxpY2U6cGE6c3M="
        +:+ String "013"%char (String "010"%char "")))
  = Ok ("alice", "pa:ss").
Proof.
  apply (parseCredentials_white_space _
           (String "009"%char " ") "  "
           (String "013"%char (String "010"%char "")) "alice" "pa:ss").
  - repeat constructor.
  - repeat constructor.
  - repeat constructor.
  - discriminate.
  - intros H. repeat (apply elem_of_cons in H as [H|H]; [discriminate H|]).
    inversion H.
  - vm_compute. reflexivity.
Defined.

(** ** The four ways through checkRequest *)

Lemma parseCredentials_present (req : Request) (err : error) :
  Header_Get (Header req) "Authorization" <> "" ->
  parseCredentials req = Fail err ->
  errgo.Is errNoCreds (errgo.Cause err) = false.
Proof.
  intros Hne Hparse.
  destruct (parseCredentials_errors req err Hparse) as [E | [E | [E | E]]];
    subst err; try reflexivity.
  exfalso. revert Hparse. unfold parseCredentials.
  rewrite (eqb_false_of_ne _ _ Hne).
  repeat match goal with
         | |- context [if ?b then _ else _] => destruct b
         | |- context [match ?x with _ => _ end] => destruct x
         end; discriminate.
Qed.

Lemma parseCredentials_absent (req : Request) (user passwd : string) :
  Header_Get (Header req) "Authorization" = "" ->
  parseCredentials req <> Ok (user, passwd).
Proof.
  intros H. rewrite (parseCredentials_missing req H). discriminate.
Qed.

Lemma checkRequest_cases (h : Handler) (req : Request) (t : list Call) :
  (parseCredentials req
   = Ok (AuthUsername (config h), AuthPassword (config h))
   /\ checkRequest h req t = (Ret (Ok superuser), t))
  \/ (exists user passwd,
        parseCredentials req = Ok (user, passwd)
        /\ (user, passwd)
           <> (AuthUsername (config h), AuthPassword (config h))
        /\ checkRequest h req t = (Ret (Fail invalidCredentials), t))
  \/ (exists err,
        parseCredentials req = Fail err
        /\ (Header_Get (Header req) "Authorization" <> ""
            \/ Bakery (store h) = None
            \/ IdentityLocation (config h) = "")
        /\ checkRequest h req t = (Ret (Fail (authenticationFailed err)), t))
  \/ (exists svc,
        Header_Get (Header req) "Authorization" = ""
        /\ Bakery (store h) = Some svc
        /\ IdentityLocation (config h) <> ""
        /\ checkRequest h req t
           = (Ret match CheckRequest svc req with
                  | Fail err => Fail (errgo.Mask err [errgo.Any])
                  | Ok attrMap => Ok (declared attrMap)
                  end,
              (t ++ [CallCheckRequest req])%list)).
Proof.
  unfold checkRequest.
  destruct (parseCredentials req) as [[user passwd]|err] eqn:Hparse.
  - destruct (String.eqb_spec user (AuthUsername (config h))) as [Hu|Hu];
      destruct (String.eqb_spec passwd (AuthPassword (config h))) as [Hp|Hp];
      simpl.
    + left. subst. auto.
    + right; left. exists user, passwd. repeat split; congruence.
    + right; left. exists user, passwd. repeat split; congruence.
    + right; left. exists user, passwd. repeat split; congruence.
  - right; right.
    destruct (String.eqb_spec (Header_Get (Header req) "Authorization") "")
      as [Hempty|Hpresent].
    + rewrite (parseCredentials_missing req Hempty) in Hparse.
      inversion Hparse; subst err. simpl.
      destruct (Bakery (store h)) as [svc|] eqn:Hbakery; simpl.
      * destruct (String.eqb_spec (IdentityLocation (config h)) "")
          as [Hloc|Hloc].
        -- left. exists errNoCreds. auto.
        -- right. exists svc. repeat split; try assumption.
           rewrite bind_record. destruct (CheckRequest svc req); reflexivity.
      * left. exists errNoCreds. auto.
    + left. exists err.
      rewrite (parseCredentials_present req err Hpresent Hparse). simpl.
      auto.
Qed.

(** X3. checkRequest returns an admin authorization only when the request's
    Basic credentials parse to exactly the configured pair: the bakery is
    then not called, and the configured username holds no ':' (a handler
    configured with a ':' in the admin name can never see an admin). *)
Theorem admin_only_by_configured_pair (h : Handler) (req : Request)
    (auth : authorization) (t t' : list Call) :
  checkRequest h req t = (Ret (Ok auth), t') ->
  Admin auth = true ->
  parseCredentials req = Ok (AuthUsername (config h), AuthPassword (config h))
  /\ (":"%char ∉ list_ascii_of_string (AuthUsername (config h)))
  /\ t' = t.
Proof.
  intros Hcheck Hadmin.
  destruct (checkRequest_cases h req t)
    as [[Hparse E] | [(u & p & _ & _ & E) | [(err & _ & _ & E)
       | (svc & _ & _ & _ & E)]]];
    rewrite E in Hcheck; inversion Hcheck; subst.
  - split; [exact Hparse|]. split; [|reflexivity].
    destruct (parseCredentials_inv _ _ _ Hparse) as (e & c & _ & _ & Hcut).
    apply (cut_inv _ _ _ _ Hcut).
  - destruct (CheckRequest svc req); inversion H0; subst.
    discriminate Hadmin.
Qed.

Lemma admin_only_by_configured_pair_witness :
  parseCredentials (Sample.request "GET" (basicHeader "admin" "s3cret"))
  = Ok ("admin", "s3cret").
Proof.
  refine (proj1 (admin_only_by_configured_pair
                   (Sample.handler (Some Sample.bakery) "https://idm")
                   (Sample.request "GET" (basicHeader "admin" "s3cret"))
                   superuser [] [] _ _)).
  - vm_compute. reflexivity.
  - reflexivity.
Defined.

(** X4. checkRequest never panics and calls the token verifier at most
    once: exactly when the request has no Authorization header, the bakery
    is not nil and the identity location is not empty.  In every other case
    no collaborator is called. *)
Theorem checkRequest_calls (h : Handler) (req : Request) (t : list Call) :
  isPanic (fst (checkRequest h req t)) = false
  /\ snd (checkRequest h req t)
     = if String.eqb (Header_Get (Header req) "Authorization") ""
          && negb (isNone (Bakery (store h)))
          && negb (String.eqb (IdentityLocation (config h)) "")
       then (t ++ [CallCheckRequest req])%list
       else t.
Proof.
  destruct (checkRequest_cases h req t)
    as [[Hparse E] | [(u & p & Hparse & _ & E) | [(err & Hparse & Hwhy & E)
       | (svc & Hempty & Hbakery & Hloc & E)]]];
    rewrite E; simpl; (split; [reflexivity|]).
  - destruct (String.eqb_spec (Header_Get (Header req) "Authorization") "")
      as [Hempty|_]; [|reflexivity].
    exfalso. exact (parseCredentials_absent req _ _ Hempty Hparse).
  - destruct (String.eqb_spec (Header_Get (Header req) "Authorization") "")
      as [Hempty|_]; [|reflexivity].
    exfalso. exact (parseCredentials_absent req _ _ Hempty Hparse).
  - destruct Hwhy as [Hpresent | [Hnil | Hloc]].
    + rewrite (eqb_false_of_ne _ _ Hpresent). reflexivity.
    + rewrite Hnil. simpl. rewrite andb_false_r. reflexivity.
    + rewrite Hloc. simpl. rewrite andb_false_r. reflexivity.
  - rewrite Hempty, Hbakery, (eqb_false_of_ne _ _ Hloc). reflexivity.
Qed.

(** ** The fields of a string *)






(** ** The ways through authorize *)

Lemma authorize_hard_failure (h : Handler) (req : Request) (acl : list string)
    (verr : error) (t : list Call) :
  params.Everyone ∉ acl ->
  checkRequest h req t = (Ret (Fail verr), t) ->
  errgo.Cause verr = params.ErrUnauthorized ->
  authorize h req acl t
  = (Ret (Some (errgo.Mask verr [errgo.Is params.ErrUnauthorized])), t)
    /\ Unauthorized (errgo.Mask verr [errgo.Is params.ErrUnauthorized]).
Proof.
  intros Hclosed Hcheck Hcause. unfold authorize.
  rewrite (openToEveryone_closed acl Hclosed).
  rewrite (bind_outcome _ _ _ _ _ Hcheck). rewrite Hcause.
  split; [reflexivity|].
  unfold Unauthorized, errgo.Mask. rewrite Hcause. reflexivity.
Qed.

Lemma authorize_token (h : Handler) (req : Request) (acl : list string)
    (svc : Service) (t : list Call) :
  params.Everyone ∉ acl ->
  Bakery (store h) = Some svc ->
  checkRequest h req t
  = (Ret match CheckRequest svc req with
         | Fail err => Fail (errgo.Mask err [errgo.Any])
         | Ok attrMap => Ok (declared attrMap)
         end,
     (t ++ [CallCheckRequest req])%list) ->
  authorize h req acl t = tokenOutcome h svc req acl t.
Proof.
  intros Hclosed Hbakery Hcheck. unfold authorize, tokenOutcome.
  rewrite (openToEveryone_closed acl Hclosed).
  rewrite (bind_outcome _ _ _ _ _ Hcheck).
  destruct (CheckRequest svc req) as [attrMap|err].
  - destruct (checkACLMembership (declared attrMap) acl); reflexivity.
  - replace (errgo.Cause (errgo.Mask err [errgo.Any])) with (errgo.Cause err)
      by reflexivity.
    destruct (isVerificationError (errgo.Cause err)); [|reflexivity].
    change (negb true) with false. cbv iota.
    rewrite (bind_outcome _ _ _ _ _ (newMacaroon_configured h svc _ Hbakery)).
    rewrite <- app_assoc. simpl.
    destruct (NewMacaroon svc "" (mintedCaveats h)); reflexivity.
Qed.

Lemma authorize_cases (h : Handler) (req : Request) (acl : list string)
    (t : list Call) :
  (authorize h req acl t = (Ret None, t)
   /\ ((params.Everyone ∈ acl)
       \/ parseCredentials req
          = Ok (AuthUsername (config h), AuthPassword (config h))))
  \/ ((params.Everyone ∉ acl)
      /\ Header_Get (Header req) "Authorization" <> ""
      /\ exists verr,
           authorize h req acl t
           = (Ret (Some (errgo.Mask verr [errgo.Is params.ErrUnauthorized])), t)
           /\ Unauthorized (errgo.Mask verr [errgo.Is params.ErrUnauthorized]))
  \/ ((params.Everyone ∉ acl)
      /\ Header_Get (Header req) "Authorization" = ""
      /\ (Bakery (store h) = None \/ IdentityLocation (config h) = "")
      /\ authorize h req acl t
         = (Ret (Some (errgo.Mask (authenticationFailed errNoCreds)
                         [errgo.Is params.ErrUnauthorized])), t))
  \/ ((params.Everyone ∉ acl)
      /\ Header_Get (Header req) "Authorization" = ""
      /\ IdentityLocation (config h) <> ""
      /\ exists svc,
           Bakery (store h) = Some svc
           /\ authorize h req acl t = tokenOutcome h svc req acl t).
Proof.
  destruct (decide (params.Everyone ∈ acl)) as [Hopen|Hclosed].
  { left. split; [|left; exact Hopen].
    unfold authorize. apply openToEveryone_spec in Hopen. rewrite Hopen.
    reflexivity. }
  destruct (String.eqb_spec (Header_Get (Header req) "Authorization") "")
    as [Hempty|Hpresent];
    destruct (checkRequest_cases h req t)
      as [[Hparse E] | [(u & p & Hparse & _ & E) | [(err & Hparse & Hwhy & E)
         | (svc & Hempty' & Hbakery & Hloc & E)]]].
  - exfalso. exact (parseCredentials_absent req _ _ Hempty Hparse).
  - exfalso. exact (parseCredentials_absent req _ _ Hempty Hparse).
  - right; right; left.
    rewrite (parseCredentials_missing req Hempty) in Hparse.
    inversion Hparse; subst err.
    split; [exact Hclosed|]. split; [exact Hempty|]. split.
    + destruct Hwhy as [Hp | [Hn | Hl]]; [contradiction | left | right];
        assumption.
    + apply (authorize_hard_failure h req acl _ t Hclosed E eq_refl).
  - right; right; right. repeat split; try assumption.
    exists svc. split; [exact Hbakery|].
    apply authorize_token; assumption.
  - left. split; [|right; exact Hparse]. apply authorize_admin. exact Hparse.
  - right; left. split; [exact Hclosed|]. split; [exact Hpresent|].
    exists invalidCredentials.
    apply (authorize_hard_failure h req acl _ t Hclosed E eq_refl).
  - right; left. split; [exact Hclosed|]. split; [exact Hpresent|].
    exists (authenticationFailed err).
    apply (authorize_hard_failure h req acl _ t Hclosed E eq_refl).
  - contradiction.
Qed.

Lemma authorize_by_token (h : Handler) (req : Request) (acl : list string)
    (svc : Service) (t : list Call) :
  params.Everyone ∉ acl ->
  Header_Get (Header req) "Authorization" = "" ->
  Bakery (store h) = Some svc ->
  IdentityLocation (config h) <> "" ->
  authorize h req acl t = tokenOutcome h svc req acl t.
Proof.
  intros Hclosed Hempty Hbakery Hloc.
  destruct (authorize_cases h req acl t)
    as [[_ [Hopen|Hparse]] | [(_ & Hpresent & _) | [(_ & _ & Hwhy & _)
       | (_ & _ & _ & svc' & Hbakery' & E)]]].
  - contradiction.
  - exfalso. exact (parseCredentials_absent req _ _ Hempty Hparse).
  - contradiction.
  - destruct Hwhy as [Hnil|Hnone]; [congruence | contradiction].
  - rewrite Hbakery in Hbakery'. inversion Hbakery'; subst. exact E.
Qed.





(** X7. Every call of authorize ends in one of five ways: nil; an error
    whose cause is ErrUnauthorized; the masked error of a token verifier
    that failed without a verification error; the discharge-required error
    with the cookie path "/"; or the error "cannot mint macaroon".  The
    verifier is called at most once, and a macaroon is minted, once and
    after the verifier, in the last two cases only. *)
Theorem authorize_outcomes (h : Handler) (req : Request) (acl : list string)
    (t : list Call) :
  exists (r : option error) (t' : list Call),
    authorize h req acl t = (Ret r, t')
    /\ ((r = None
         /\ (t' = t \/ t' = (t ++ [CallCheckRequest req])%list))
        \/ (exists err,
              r = Some err /\ Unauthorized err
              /\ (t' = t \/ t' = (t ++ [CallCheckRequest req])%list))
        \/ (exists err,
              r = Some (errgo.Mask (errgo.Mask err [errgo.Any])
                          [errgo.Is params.ErrUnauthorized])
              /\ isVerificationError (errgo.Cause err) = false
              /\ t' = (t ++ [CallCheckRequest req])%list)
        \/ (exists m verr,
              r = Some (DischargeRequiredError m "/" verr)
              /\ t' = (t ++ [CallCheckRequest req;
                             CallNewMacaroon "" (mintedCaveats h)])%list)
        \/ (exists mintErr,
              r = Some (errgo.Notef mintErr "cannot mint macaroon" [])
              /\ t' = (t ++ [CallCheckRequest req;
                             CallNewMacaroon "" (mintedCaveats h)])%list)).
Proof.
  destruct (authorize_cases h req acl t)
    as [[E _] | [(_ & _ & verr & E & HU) | [(_ & _ & _ & E)
       | (_ & _ & _ & svc & _ & E)]]]; rewrite E.
  - eexists _, _. split; [reflexivity|]. left. auto.
  - eexists _, _. split; [reflexivity|]. right; left. eauto.
  - eexists _, _. split; [reflexivity|]. right; left.
    eexists. split; [reflexivity|]. split; [reflexivity | left; reflexivity].
  - unfold tokenOutcome.
    destruct (CheckRequest svc req) as [attrMap|err].
    + eexists _, _. split; [reflexivity|].
      destruct (checkACLMembership (declared attrMap) acl) as [denied|].
      * right; left. eexists. split; [reflexivity|].
        split; [reflexivity | right; reflexivity].
      * left. auto.
    + destruct (isVerificationError (errgo.Cause err)) eqn:Hkind.
      * eexists _, _. split; [reflexivity|].
        destruct (NewMacaroon svc "" (mintedCaveats h)) as [m|mintErr].
        -- right; right; right; left. eauto.
        -- right; right; right; right. eauto.
      * eexists _, _. split; [reflexivity|].
        right; right; left. eauto.
Qed.

(** X8. A request that carries a non-empty Authorization header, whatever
    it holds, never reaches the bakery: authorize calls no collaborator and
    returns nil or an error whose cause is ErrUnauthorized, never the
    discharge-required error. *)
Theorem header_closes_token_path (h : Handler) (req : Request)
    (acl : list string) (t : list Call) :
  Header_Get (Header req) "Authorization" <> "" ->
  exists r : option error,
    authorize h req acl t = (Ret r, t)
    /\ (r = None
        \/ exists err,
             r = Some err /\ Unauthorized err
             /\ isDischargeRequired err = false).
Proof.
  intros Hpresent.
  destruct (authorize_cases h req acl t)
    as [[E _] | [(_ & _ & verr & E & HU) | [(_ & Hempty & _)
       | (_ & Hempty & _)]]]; try contradiction.
  - exists None. auto.
  - eexists. split; [exact E|]. right. eexists.
    split; [reflexivity|]. split; [exact HU | reflexivity].
Qed.

Lemma header_closes_token_path_witness :
  exists r : option error,
    authorize (Sample.handler (Some Sample.bakery) "https://idm")
              (Sample.request "GET" "Bearer abc") ["charmers"] []
    = (Ret r, [])
    /\ (r = None
        \/ exists err,
             r = Some err /\ Unauthorized err
             /\ isDischargeRequired err = false).
Proof.
  apply (header_closes_token_path
           (Sample.handler (Some Sample.bakery) "https://idm")
           (Sample.request "GET" "Bearer abc") ["charmers"] []).
  vm_compute. discriminate.
Defined.

(** X9. When the bakery verifies the macaroon of a request without an
    Authorization header, authorize decides by the declared attributes and
    calls nothing else: access is granted exactly when the declared
    username is not empty and the set {"everyone", username} ∪ groups meets
    the ACL; otherwise the error has the cause ErrUnauthorized and is not
    the discharge-required error, so no new macaroon is minted. *)
Theorem verified_user_decided_by_acl (h : Handler) (req : Request)
    (acl : list string) (svc : Service) (attrMap : gmap string string)
    (t : list Call) :
  params.Everyone ∉ acl ->
  Header_Get (Header req) "Authorization" = "" ->
  Bakery (store h) = Some svc ->
  IdentityLocation (config h) <> "" ->
  CheckRequest svc req = Ok attrMap ->
  exists r : option error,
    authorize h req acl t = (Ret r, (t ++ [CallCheckRequest req])%list)
    /\ (r = None
        <-> attr attrMap usernameAttr <> ""
            /\ membership (declared attrMap) ∩ principals acl ≠ ∅)
    /\ (forall err, r = Some err ->
          Unauthorized err /\ isDischargeRequired err = false).
Proof.
  intros Hclosed Hempty Hbakery Hloc Hverified.
  rewrite (authorize_by_token h req acl svc t Hclosed Hempty Hbakery Hloc).
  unfold tokenOutcome. rewrite Hverified.
  eexists. split; [reflexivity|]. split.
  - destruct (decide (attr attrMap usernameAttr = "")) as [Hname|Hname].
    + rewrite (nameless_refused (declared attrMap) acl eq_refl Hname).
      split; [discriminate | intros [H _]; contradiction].
    + destruct (checkACLMembership_named (declared attrMap) acl eq_refl Hname)
        as [Hiff _].
      destruct (checkACLMembership (declared attrMap) acl) as [denied|] eqn:E.
      * split; [discriminate|]. intros [_ Hmeet].
        apply intersects_spec in Hmeet. apply Hiff in Hmeet. discriminate.
      * split; [|reflexivity]. intros _. split; [exact Hname|].
        apply intersects_spec. apply Hiff. reflexivity.
  - intros err Herr.
    destruct (checkACLMembership (declared attrMap) acl) as [denied|];
      inversion Herr; subst. split; reflexivity.
Qed.

Lemma verified_user_decided_by_acl_witness :
  exists r : option error,
    authorize (Sample.handler (Some (Fixture.verifier Fixture.bobAttrs))
                              "https://idm")
              (Sample.request "PUT" "") ["yellow"] []
    = (Ret r, [CallCheckRequest (Sample.request "PUT" "")])
    /\ (r = None
        <-> attr Fixture.bobAttrs usernameAttr <> ""
            /\ membership (declared Fixture.bobAttrs) ∩ principals ["yellow"]
               ≠ ∅)
    /\ (forall err, r = Some err ->
          Unauthorized err /\ isDischargeRequired err = false).
Proof.
  apply (verified_user_decided_by_acl
           (Sample.handler (Some (Fixture.verifier Fixture.bobAttrs))
                           "https://idm")
           (Sample.request "PUT" "") ["yellow"]
           (Fixture.verifier Fixture.bobAttrs) Fixture.bobAttrs []).
  - intros H. repeat (apply elem_of_cons in H as [H|H]; [discriminate H|]).
    inversion H.
  - vm_compute. reflexivity.
  - reflexivity.
  - simpl. discriminate.
  - reflexivity.
Defined.

(** X10. The discharge-required error has one origin.  If authorize returns
    it, then its cookie path is "/", the ACL does not hold "everyone", the
    request has no Authorization header, the bakery and the identity
    location are configured, the verifier failed on this request with an
    error whose cause is a verification error and which the returned error
    carries masked, and the macaroon is the one NewMacaroon returned for
    the caveat of the handler; the verifier and the minter were each called
    once. *)
Theorem discharge_required_origin (h : Handler) (req : Request)
    (acl : list string) (m : Macaroon) (path : string) (verr : error)
    (t t' : list Call) :
  authorize h req acl t = (Ret (Some (DischargeRequiredError m path verr)), t') ->
  path = "/"
  /\ (params.Everyone ∉ acl)
  /\ Header_Get (Header req) "Authorization" = ""
  /\ IdentityLocation (config h) <> ""
  /\ (exists svc err,
        Bakery (store h) = Some svc
        /\ CheckRequest svc req = Fail err
        /\ isVerificationError (errgo.Cause err) = true
        /\ verr = errgo.Mask err [errgo.Any]
        /\ NewMacaroon svc "" (mintedCaveats h) = Ok m)
  /\ t' = (t ++ [CallCheckRequest req;
                 CallNewMacaroon "" (mintedCaveats h)])%list.
Proof.
  intros Hauth.
  destruct (authorize_cases h req acl t)
    as [[E _] | [(_ & _ & verr' & E & _) | [(_ & _ & _ & E)
       | (Hclosed & Hempty & Hloc & svc & Hbakery & E)]]];
    rewrite E in Hauth; try discriminate Hauth.
  unfold tokenOutcome in Hauth.
  destruct (CheckRequest svc req) as [attrMap|err] eqn:Hverify.
  - destruct (checkACLMembership (declared attrMap) acl);
      discriminate Hauth.
  - destruct (isVerificationError (errgo.Cause err)) eqn:Hkind;
      [|discriminate Hauth].
    destruct (NewMacaroon svc "" (mintedCaveats h)) as [m'|mintErr] eqn:Hmint;
      [|discriminate Hauth].
    inversion Hauth; subst.
    repeat split; try assumption; try reflexivity.
    exists svc, err. auto.
Qed.

Lemma discharge_required_origin_witness :
  "/" = "/"
  /\ (params.Everyone ∉ ["charmers"])
  /\ Header_Get (Header (Sample.request "GET" "")) "Authorization" = "".
Proof.
  pose proof (discharge_required_origin
                (Sample.handler (Some Sample.bakery) "https://idm")
                (Sample.request "GET" "") ["charmers"]
                {| macaroonId := "m1" |} "/"
                (errgo.Mask Sample.noMacaroon [errgo.Any]) []
                [CallCheckRequest (Sample.request "GET" "");
                 CallNewMacaroon ""
                   (mintedCaveats
                      (Sample.handler (Some Sample.bakery) "https://idm"))])
    as H.
  destruct H as (H1 & H2 & H3 & _).
  - vm_compute. reflexivity.
  - split; [exact H1|]. split; [exact H2 | exact H3].
Defined.

Lemma Is_ErrUnauthorized (err : error) :
  errgo.Is params.ErrUnauthorized err = true <-> err = params.ErrUnauthorized.
Proof.
  unfold errgo.Is, params.ErrUnauthorized. split.
  - destruct err as [code| | | |]; try discriminate.
    intros H. apply String.eqb_eq in H. subst. reflexivity.
  - intros ->. reflexivity.
Qed.

Lemma Cause_Mask_Is (verr : error) :
  errgo.Cause (errgo.Mask verr [errgo.Is params.ErrUnauthorized])
  = if errgo.Is params.ErrUnauthorized (errgo.Cause verr)
    then errgo.Cause verr
    else errgo.Mask verr [errgo.Is params.ErrUnauthorized].
Proof.
  unfold errgo.Mask, existsb. rewrite orb_false_r.
  destruct (errgo.Is params.ErrUnauthorized (errgo.Cause verr)); reflexivity.
Qed.

(** X11. When the token verifier fails with an error whose cause is not a
    verification error, authorize mints nothing and returns that error
    masked twice.  The result is never the discharge-required error, and
    its cause is ErrUnauthorized only when the cause of the verifier's
    error already was: any other cause is hidden, the masked error being
    its own cause. *)
Theorem verifier_failure_masked (h : Handler) (req : Request)
    (acl : list string) (svc : Service) (err : error) (t : list Call) :
  params.Everyone ∉ acl ->
  Header_Get (Header req) "Authorization" = "" ->
  Bakery (store h) = Some svc ->
  IdentityLocation (config h) <> "" ->
  CheckRequest svc req = Fail err ->
  isVerificationError (errgo.Cause err) = false ->
  let masked := errgo.Mask (errgo.Mask err [errgo.Any])
                  [errgo.Is params.ErrUnauthorized] in
  authorize h req acl t
  = (Ret (Some masked), (t ++ [CallCheckRequest req])%list)
  /\ isDischargeRequired masked = false
  /\ (Unauthorized masked <-> errgo.Cause err = params.ErrUnauthorized)
  /\ (errgo.Cause err <> params.ErrUnauthorized ->
      errgo.Cause masked = masked).
Proof.
  intros Hclosed Hempty Hbakery Hloc Hverify Hkind masked.
  split.
  { rewrite (authorize_by_token h req acl svc t Hclosed Hempty Hbakery Hloc).
    unfold tokenOutcome. rewrite Hverify, Hkind. reflexivity. }
  split; [reflexivity|].
  assert (errgo.Cause err <> params.ErrUnauthorized ->
          errgo.Cause masked = masked) as Hhidden.
  { intros Hother. unfold masked. rewrite Cause_Mask_Is.
    replace (errgo.Cause (errgo.Mask err [errgo.Any])) with (errgo.Cause err)
      by reflexivity.
    destruct (errgo.Is params.ErrUnauthorized (errgo.Cause err)) eqn:HIs.
    - apply Is_ErrUnauthorized in HIs. contradiction.
    - reflexivity. }
  split; [|exact Hhidden].
  unfold Unauthorized. split.
  - intros HU.
    destruct (errgo.Is params.ErrUnauthorized (errgo.Cause err)) eqn:HIs.
    + apply Is_ErrUnauthorized. exact HIs.
    + assert (errgo.Cause err <> params.ErrUnauthorized) as Hc.
      { intros Hc. apply Is_ErrUnauthorized in Hc. congruence. }
      rewrite (Hhidden Hc) in HU. discriminate HU.
  - intros Hc. unfold masked. rewrite Cause_Mask_Is.
    replace (errgo.Cause (errgo.Mask err [errgo.Any])) with (errgo.Cause err)
      by reflexivity.
    rewrite Hc. reflexivity.
Qed.

Lemma verifier_failure_masked_witness :
  authorize (Sample.handler (Some Fixture.broken) "https://idm")
            (Sample.request "GET" "") ["charmers"] []
  = (Ret (Some (errgo.Mask
                  (errgo.Mask (OtherError "cannot reach storage") [errgo.Any])
                  [errgo.Is params.ErrUnauthorized])),
     [CallCheckRequest (Sample.request "GET" "")]).
Proof.
  refine (proj1 (verifier_failure_masked
                   (Sample.handler (Some Fixture.broken) "https://idm")
                   (Sample.request "GET" "") ["charmers"] Fixture.broken
                   (OtherError "cannot reach storage") [] _ _ _ _ _ _)).
  - intros H. repeat (apply elem_of_cons in H as [H|H]; [discriminate H|]).
    inversion H.
  - vm_compute. reflexivity.
  - reflexivity.
  - simpl. discriminate.
  - reflexivity.
  - reflexivity.
Defined.

(** ** Further properties of checkACLMembership *)

Lemma membership_grows (auth auth' : authorization) (name : string) :
  Username auth' = Username auth ->
  Groups auth ⊆ Groups auth' ->
  name ∈ membership auth -> name ∈ membership auth'.
Proof.
  intros Hname Hgroups. unfold membership. rewrite Hname.
  rewrite !elem_of_union, !elem_of_list_to_set.
  intros [H|H]; [left; exact H | right; apply Hgroups; exact H].
Qed.

(** X12. Access is monotone: if checkACLMembership grants access, it still
    does after names are added to the ACL or groups to the authorization
    (with the same Admin flag and Username), in any order and with any
    repetitions. *)
Theorem access_monotone (auth auth' : authorization) (acl acl' : list string) :
  checkACLMembership auth acl = None ->
  Admin auth' = Admin auth ->
  Username auth' = Username auth ->
  Groups auth ⊆ Groups auth' ->
  acl ⊆ acl' ->
  checkACLMembership auth' acl' = None.
Proof.
  intros Hgrant Hadmin Hname Hgroups Hacl.
  destruct (Admin auth) eqn:Ha.
  - apply checkACLMembership_admin. exact Hadmin.
  - destruct (decide (Username auth = "")) as [Hnone|Hnamed].
    + rewrite (nameless_refused auth acl Ha Hnone) in Hgrant.
      discriminate Hgrant.
    + apply (checkACLMembership_named auth acl Ha Hnamed) in Hgrant
        as (name & Hin & Hmem).
      apply (checkACLMembership_named auth' acl' Hadmin).
      * rewrite Hname. exact Hnamed.
      * exists name. split; [apply Hacl; exact Hin|].
        apply (membership_grows auth auth' name Hname Hgroups Hmem).
Qed.

Lemma access_monotone_witness :
  checkACLMembership
    {| Admin := false; Username := "bob"; Groups := ["yellow"; "charmers"] |}
    ["alice"; "charmers"; "alice"] = None.
Proof.
  apply (access_monotone Sample.bob _ ["charmers"]).
  - reflexivity.
  - reflexivity.
  - reflexivity.
  - intros g Hg. apply list_elem_of_singleton in Hg. subst g. right. left.
  - intros n Hn. apply list_elem_of_singleton in Hn. subst n. right. left.
Defined.

(** X13. An empty ACL admits admins only: checkACLMembership grants access
    to the empty ACL exactly when the Admin flag is set. *)
Theorem empty_acl_admits_admin_only (auth : authorization) :
  checkACLMembership auth [] = None <-> Admin auth = true.
Proof.
  split.
  - unfold checkACLMembership. destruct (Admin auth); [reflexivity|].
    destruct (String.eqb (Username auth) ""); discriminate.
  - apply checkACLMembership_admin.
Qed.

(** X14. On an ACL that holds "everyone", checkACLMembership grants access
    to every admin and to every authorization with a non-empty Username,
    and to no other: the nameless non-admin authorization is refused even
    there. *)
Theorem everyone_entry_admits_the_named (auth : authorization)
    (acl : list string) :
  params.Everyone ∈ acl ->
  (checkACLMembership auth acl = None
   <-> Admin auth = true \/ Username auth <> "").
Proof.
  intros Hopen. split.
  - intros Hgrant. destruct (Admin auth) eqn:Ha; [left; reflexivity|].
    right. intros Hnone.
    rewrite (nameless_refused auth acl Ha Hnone) in Hgrant.
    discriminate Hgrant.
  - intros [Ha|Hnamed]; [apply checkACLMembership_admin; exact Ha|].
    destruct (Admin auth) eqn:Ha;
      [apply checkACLMembership_admin; exact Ha|].
    apply (checkACLMembership_named auth acl Ha Hnamed).
    exists params.Everyone. split; [exact Hopen|].
    unfold membership. rewrite !elem_of_union, !elem_of_singleton.
    left; left. reflexivity.
Qed.

Lemma everyone_entry_admits_the_named_witness :
  checkACLMembership Sample.nameless ["everyone"] = None
  <-> Admin Sample.nameless = true \/ Username Sample.nameless <> "".
Proof.
  apply (everyone_entry_admits_the_named Sample.nameless ["everyone"]).
  left.
Defined.

(** ** Missing and malformed headers *)

(** X15. parseCredentials reports missing credentials exactly when the
    Authorization header is absent or empty.  A header that is not empty
    but holds only ASCII white space is not missing: it fails with
    "invalid HTTP auth header". *)
Theorem missing_header_only_when_empty (req : Request) :
  (parseCredentials req = Fail errNoCreds
   <-> Header_Get (Header req) "Authorization" = "")
  /\ (Header_Get (Header req) "Authorization" <> "" ->
      Forall (fun c => asciiSpaceb c = true)
             (list_ascii_of_string (Header_Get (Header req) "Authorization")) ->
      parseCredentials req = Fail (errgo.New "invalid HTTP auth header")).
Proof.
  split.
  - split; [|apply parseCredentials_missing].
    intros Hparse.
    destruct (String.eqb_spec (Header_Get (Header req) "Authorization") "")
      as [Hempty|Hpresent]; [exact Hempty|].
    pose proof (parseCredentials_present req _ Hpresent Hparse) as H.
    discriminate H.
  - intros Hpresent Hblank. unfold parseCredentials.
    rewrite (eqb_false_of_ne _ _ Hpresent).
    unfold strings.Fields. rewrite (fieldsFrom_trailing _ _ Hblank).
    reflexivity.
Qed.

Lemma missing_header_only_when_empty_witness :
  parseCredentials (Sample.request "GET" "   ")
  = Fail (errgo.New "invalid HTTP auth header").
Proof.
  apply (proj2 (missing_header_only_when_empty (Sample.request "GET" "   "))).
  - vm_compute. discriminate.
  - vm_compute. repeat constructor.
Defined.

(** ** authorizeEntity when the store fails *)

Lemma Is_ErrNotFound (err : error) :
  errgo.Is params.ErrNotFound err = true <-> err = params.ErrNotFound.
Proof.
  unfold errgo.Is, params.ErrNotFound. split.
  - destruct err as [code| | | |]; try discriminate.
    intros H. apply String.eqb_eq in H. subst. reflexivity.
  - intros ->. reflexivity.
Qed.

(** X16. When the store cannot return the base entity, authorizeEntity
    authorizes nothing and calls no other collaborator.  For an error whose
    cause is ErrNotFound it returns a new error "entity %q not found" with
    the cause ErrNotFound and no underlying error; for any other error it
    returns "cannot retrieve entity %q for authorization" wrapping the
    store's error.  Neither result has the cause ErrUnauthorized, and
    neither is the discharge-required error. *)
Theorem store_failure_reported (h : Handler) (id : ResolvedURL)
    (req : Request) (err : error) (t : list Call) :
  FindBaseEntity (store h) (URL id) ["acls"] = Fail err ->
  let t' := (t ++ [CallFindBaseEntity (URL id) ["acls"]])%list in
  let notFound := errgo.WithCausef None (Some params.ErrNotFound)
                    "entity %q not found" [OpURL id] in
  let unavailable := errgo.Notef err
                       "cannot retrieve entity %q for authorization"
                       [OpURL id] in
  (errgo.Cause err = params.ErrNotFound ->
   authorizeEntity h id req t = (Ret (Some notFound), t'))
  /\ (errgo.Cause err <> params.ErrNotFound ->
      authorizeEntity h id req t = (Ret (Some unavailable), t'))
  /\ errgo.Cause notFound = params.ErrNotFound
  /\ errgo.Cause unavailable = unavailable
  /\ ~ Unauthorized notFound /\ ~ Unauthorized unavailable
  /\ isDischargeRequired notFound = false
  /\ isDischargeRequired unavailable = false.
Proof.
  intros Hfind t' notFound unavailable.
  split; [|split].
  - intros Hcause. unfold authorizeEntity. rewrite bind_record, Hfind.
    rewrite (proj2 (Is_ErrNotFound _) Hcause). reflexivity.
  - intros Hcause. unfold authorizeEntity. rewrite bind_record, Hfind.
    destruct (errgo.Is params.ErrNotFound (errgo.Cause err)) eqn:HIs;
      [|reflexivity].
    apply Is_ErrNotFound in HIs. contradiction.
  - repeat split; try reflexivity; intros H; discriminate H.
Qed.

Lemma store_failure_reported_witness :
  authorizeEntity
    (Fixture.failing (errgo.Notef params.ErrNotFound "no such entity" []))
    Sample.id (Sample.request "GET" "") []
  = (Ret (Some (errgo.Notef
                  (errgo.Notef params.ErrNotFound "no such entity" [])
                  "cannot retrieve entity %q for authorization"
                  [OpURL Sample.id])),
     [CallFindBaseEntity (URL Sample.id) ["acls"]]).
Proof.
  refine (proj1 (proj2 (store_failure_reported
            (Fixture.failing (errgo.Notef params.ErrNotFound "no such entity" []))
            Sample.id (Sample.request "GET" "")
            (errgo.Notef params.ErrNotFound "no such entity" []) [] _)) _).
  - reflexivity.
  - simpl. discriminate.
Defined.

(** ** authorizeEntity on an entity of the store *)

Lemma authorizeEntity_found (h : Handler) (id : ResolvedURL) (req : Request)
    (entity : BaseEntity) (t : list Call) :
  FindBaseEntity (store h) (URL id) ["acls"] = Ok entity ->
  authorizeEntity h id req t
  = authorize h req
      (if bool_decide (Method req ∈ mutatingMethods)
       then Write (ACLs entity) else Read (ACLs entity))
      (t ++ [CallFindBaseEntity (URL id) ["acls"]])%list.
Proof.
  intros Hfind. unfold authorizeEntity, authorizeWithPerms.
  rewrite bind_record, Hfind, mutating_spec. reflexivity.
Qed.

(** X17. An entity whose Read ACL holds "everyone" can be read by anyone:
    for every method other than DELETE, PATCH, POST and PUT, authorizeEntity
    returns nil after the one lookup in the store, whatever credentials the
    request carries, well formed or not, and without calling the bakery. *)
Theorem public_entity_readable (h : Handler) (id : ResolvedURL)
    (req : Request) (entity : BaseEntity) (t : list Call) :
  FindBaseEntity (store h) (URL id) ["acls"] = Ok entity ->
  params.Everyone ∈ Read (ACLs entity) ->
  Method req ∉ mutatingMethods ->
  authorizeEntity h id req t
  = (Ret None, (t ++ [CallFindBaseEntity (URL id) ["acls"]])%list).
Proof.
  intros Hfind Hopen Hmethod.
  rewrite (authorizeEntity_found h id req entity t Hfind).
  rewrite (bool_decide_eq_false_2 _ Hmethod).
  unfold authorize. apply openToEveryone_spec in Hopen. rewrite Hopen.
  reflexivity.
Qed.

Lemma public_entity_readable_witness :
  authorizeEntity (Sample.handler None "") Sample.id
                  (Sample.request "GET" "Basic !!") []
  = (Ret None, [CallFindBaseEntity (URL Sample.id) ["acls"]]).
Proof.
  apply (public_entity_readable (Sample.handler None "") Sample.id
           (Sample.request "GET" "Basic !!") Sample.wordpress []).
  - reflexivity.
  - left.
  - intros H. repeat (apply elem_of_cons in H as [H|H]; [discriminate H|]).
    inversion H.
Defined.

(** X18. The configured admin credentials open every entity the store
    holds, for every method: authorizeEntity returns nil after the one
    lookup in the store, whatever the Read and Write ACLs of the entity
    are, and the bakery is not called. *)
Theorem admin_passes_every_entity (h : Handler) (id : ResolvedURL)
    (req : Request) (entity : BaseEntity) (t : list Call) :
  FindBaseEntity (store h) (URL id) ["acls"] = Ok entity ->
  parseCredentials req
  = Ok (AuthUsername (config h), AuthPassword (config h)) ->
  authorizeEntity h id req t
  = (Ret None, (t ++ [CallFindBaseEntity (URL id) ["acls"]])%list).
Proof.
  intros Hfind Hparse.
  rewrite (authorizeEntity_found h id req entity t Hfind).
  apply authorize_admin. exact Hparse.
Qed.

Lemma admin_passes_every_entity_witness :
  authorizeEntity (Sample.handler None "") Sample.id
                  (Sample.request "DELETE" (basicHeader "admin" "s3cret")) []
  = (Ret None, [CallFindBaseEntity (URL Sample.id) ["acls"]]).
Proof.
  apply (admin_passes_every_entity (Sample.handler None "") Sample.id
           (Sample.request "DELETE" (basicHeader "admin" "s3cret"))
           Sample.wordpress []).
  - reflexivity.
  - vm_compute. reflexivity.
Defined.

(** ** Two requests that are refused *)

Example nameless_macaroon_refused :
  authorize (Sample.handler (Some (Fixture.verifier Fixture.groupsOnly))
                            "https://idm")
            (Sample.request "GET" "") ["charmers"] []
  = (Ret (Some (refused (errgo.New "no username declared"))),
     [CallCheckRequest (Sample.request "GET" "")]).
Proof. vm_compute. reflexivity. Qed.

Example colon_admin_locked_out :
  authorize Fixture.colonAdmin
            (Sample.request "GET" (basicHeader "ad:min" "s3cret"))
            ["charmers"] []
  = (Ret (Some (errgo.Mask invalidCredentials
                  [errgo.Is params.ErrUnauthorized])), []).
Proof. vm_compute. reflexivity. Qed.
